(** * Lake-basin hydraulic core: a shallow embedding of [utils/math]

    The development follows the TypeScript source function by function:
    the calibrated area polynomial and its antiderivative, the linear
    year/area calibration, the bounded binary search
    [getElevationFromYear], the per-query bundle [calculateHydraulics],
    the colour ramp [getColorByHeight] and the raster ingestion
    [processRawDemData].

    Numbers.  The algorithms are modelled twice.  Parts I to XIV work
    over exact rationals ([Q]): decimal literals of the source are the
    same decimal rationals there, and where the source itself manipulates
    the special values (the [Infinity] sentinels and the [NaN] marker of
    the raster pass, a division whose divisor may be zero in the colour
    ramp) the model uses the type [number], which adds [NaN],
    [+Infinity] and [-Infinity] to the rationals.  Those parts state
    what the algorithms do when the arithmetic is exact.  The module
    [Binary64] models the hydraulic core once more over IEEE 754
    binary64, the arithmetic the program runs on, and Part XV states
    what depends on rounding and overflow: where the guards let [NaN]
    through, where the search misses its own tolerance, and what remains
    of the growth of area and volume. *)

From Stdlib Require Import QArith Qminmax Qabs Qround ZArith Lia Lqa List Bool.
From Stdlib Require Import Setoid Morphisms.
From Stdlib.Strings Require Byte.
From Stdlib Require Import Floats.
Import ListNotations.

Open Scope Q_scope.

Set Warnings "-inexact-float".

(** * Part I: the source, function by function *)

(** ** Comparisons and rounding used by the source *)

(** [x < y] as a test. *)
Definition Qltb (x y : Q) : bool := negb (Qle_bool y x).

(** [Math.round]: the nearest integer, halves going up. *)
Definition Math_round (x : Q) : Z := Qfloor (x + 0.5).

(** ** Calibration constants *)

Definition C4 : Q := -10.984357780264.
Definition C3 : Q := 191820.49752582.
Definition C2 : Q := -1256158182.19156.
Definition C1 : Q := 3656024105511.9.
Definition C0 : Q := -3990277863318550.

Definition YEAR_SLOPE : Q := 0.7903.
Definition YEAR_INTERCEPT : Q := -1483.3.

(** ** HydraulicModel *)

(** The quartic before the clamp ([area] in the source). *)
Definition polynomial (x : Q) : Q :=
  let term4 := C4 * (x ^ 4) in
  let term3 := C3 * (x ^ 3) in
  let term2 := C2 * (x ^ 2) in
  let term1 := C1 * x in
  let term0 := C0 in
  term4 + term3 + term2 + term1 + term0.

Definition calculatePolynomialArea (x : Q) : Q :=
  let area := polynomial x in
  Qmax 0 area.

Definition calculateAreaIntegral (x : Q) : Q :=
  let term5 := (C4 / 5) * (x ^ 5) in
  let term4 := (C3 / 4) * (x ^ 4) in
  let term3 := (C2 / 3) * (x ^ 3) in
  let term2 := (C1 / 2) * (x ^ 2) in
  let term1 := C0 * x in
  term5 + term4 + term3 + term2 + term1.

Definition calculateYearFromArea (areaKm2 : Q) : Q :=
  (areaKm2 - YEAR_INTERCEPT) / YEAR_SLOPE.

(** ** YearElevationSolver *)

Definition epsilon : Q := 1.

(** Outcome of the loop body: [return mid], or the next bracket.  The
    midpoint is kept in lowest terms ([Qred], which does not change its
    value) so that the search runs on concrete inputs. *)
Inductive loop_result : Type :=
| Return (mid : Q)
| Continue (low high : Q).

Definition search_body (targetAreaM2 low high : Q) : loop_result :=
  let mid := Qred ((low + high) / 2) in
  let area := calculatePolynomialArea mid in
  if Qltb (Qabs (area - targetAreaM2)) epsilon then Return mid
  else if Qltb area targetAreaM2 then Continue mid high
  else Continue low mid.

(** [for (let i = 0; i < n; i++) body], stopping at the first [return]. *)
Fixpoint search_loop (n : nat) (targetAreaM2 low high : Q) : loop_result :=
  match n with
  | O => Continue low high
  | S n' =>
      match search_body targetAreaM2 low high with
      | Return mid => Return mid
      | Continue low' high' => search_loop n' targetAreaM2 low' high'
      end
  end.

(** Steps 1 and 2 of [getElevationFromYear]: the target area in m². *)
Definition targetArea (year : Q) : Q :=
  let targetAreaKm2 := YEAR_SLOPE * year + YEAR_INTERCEPT in
  Qmax 0 (targetAreaKm2 * 1000000).

Definition getElevationFromYear (year : Q) : Q :=
  let targetAreaM2 := targetArea year in
  let low := 4304 in
  let high := 4450 in
  if Qle_bool targetAreaM2 1 then low
  else
    match search_loop 64 targetAreaM2 low high with
    | Return mid => mid
    | Continue low' high' => (low' + high') / 2
    end.

(** ** The HydraulicSample returned on every query *)

(** [estimatedYear?: number] is an optional field of the interface: [None]
    stands for a sample that leaves it out. *)
Record SimulationStats : Type := {
  waterLevel : Q;
  surfaceArea : Q;
  volume : Q;
  concentration : Q;
  estimatedYear : option Z
}.

Definition LOWER_LIMIT : Q := 4304.

Definition calculateHydraulics (absoluteElevation substanceMassTons : Q)
  : SimulationStats :=
  let surfaceAreaM2 := calculatePolynomialArea absoluteElevation in
  let volumeM3 :=
    if Qltb LOWER_LIMIT absoluteElevation
    then calculateAreaIntegral absoluteElevation
         - calculateAreaIntegral LOWER_LIMIT
    else 0 in
  let volumeM3 := Qmax 0 volumeM3 in
  let concentration :=
    if Qltb 0.001 volumeM3
    then (substanceMassTons * 1000000) / volumeM3
    else 0 in
  let surfaceAreaKm2 := surfaceAreaM2 / 1000000 in
  let estimatedYear := Math_round (calculateYearFromArea surfaceAreaKm2) in
  {| waterLevel := absoluteElevation;
     surfaceArea := surfaceAreaM2;
     volume := volumeM3;
     concentration := concentration;
     estimatedYear := Some estimatedYear |}.

(** ** JavaScript numbers with their special values *)

Inductive number : Type :=
| NaN
| PInf
| NInf
| Fin (q : Q).

Definition isNaN (v : number) : bool :=
  match v with NaN => true | _ => false end.

(** [a < b]; every comparison with [NaN] is false. *)
Definition js_lt (a b : number) : bool :=
  match a, b with
  | NaN, _ | _, NaN => false
  | Fin x, Fin y => Qltb x y
  | NInf, NInf => false
  | NInf, _ => true
  | _, NInf => false
  | PInf, _ => false
  | Fin _, PInf => true
  end.

Definition js_gt (a b : number) : bool := js_lt b a.

Definition js_neg (a : number) : number :=
  match a with
  | NaN => NaN
  | PInf => NInf
  | NInf => PInf
  | Fin x => Fin (- x)
  end.

Definition js_add (a b : number) : number :=
  match a, b with
  | NaN, _ | _, NaN => NaN
  | Fin x, Fin y => Fin (x + y)
  | PInf, NInf | NInf, PInf => NaN
  | PInf, _ | _, PInf => PInf
  | NInf, _ | _, NInf => NInf
  end.

Definition js_sub (a b : number) : number := js_add a (js_neg b).

(** Sign of a factor that meets an infinity in a product or quotient. *)
Definition signed_inf (c : comparison) : number :=
  match c with
  | Gt => PInf
  | Lt => NInf
  | Eq => NaN
  end.

Definition sign_of (a : number) : comparison :=
  match a with
  | NaN => Eq
  | PInf => Gt
  | NInf => Lt
  | Fin x => x ?= 0
  end.

Definition js_mul (a b : number) : number :=
  match a, b with
  | NaN, _ | _, NaN => NaN
  | Fin x, Fin y => Fin (x * y)
  | _, _ =>
      match sign_of a, sign_of b with
      | Eq, _ | _, Eq => NaN
      | Gt, Gt | Lt, Lt => PInf
      | _, _ => NInf
      end
  end.

(** Division: a zero divisor gives an infinity of the sign of the
    dividend, and [0 / 0] is [NaN]. *)
Definition js_div (a b : number) : number :=
  match a, b with
  | NaN, _ | _, NaN => NaN
  | Fin x, Fin y =>
      if Qeq_bool y 0 then signed_inf (x ?= 0) else Fin (x / y)
  | Fin _, _ => Fin 0
  | _, Fin y =>
      match sign_of a, (if Qeq_bool y 0 then Gt else y ?= 0) with
      | Gt, Gt | Lt, Lt => PInf
      | _, _ => NInf
      end
  | _, _ => NaN
  end.

(** [Math.max] and [Math.min]: [NaN] as soon as one argument is. *)
Definition Math_max (a b : number) : number :=
  match a, b with
  | NaN, _ | _, NaN => NaN
  | _, _ => if js_lt a b then b else a
  end.

Definition Math_min (a b : number) : number :=
  match a, b with
  | NaN, _ | _, NaN => NaN
  | _, _ => if js_lt b a then b else a
  end.

(** ** ColorMapper *)

Definition color : Type := (number * number * number)%type.

Definition channel0 (c : color) : number := fst (fst c).
Definition channel1 (c : color) : number := snd (fst c).
Definition channel2 (c : color) : number := snd c.

Definition lerp (start end_ t : number) : number :=
  js_add (js_mul start (js_sub (Fin 1) t)) (js_mul end_ t).

Definition DEEP_WATER : color := (Fin 0.1, Fin 0.2, Fin 0.4).
Definition SAND : color := (Fin 0.82, Fin 0.78, Fin 0.55).
Definition GRASS : color := (Fin 0.25, Fin 0.55, Fin 0.2).
Definition ROCK : color := (Fin 0.45, Fin 0.42, Fin 0.38).
Definition SNOW : color := (Fin 0.95, Fin 0.95, Fin 1.0).

Definition getColorByHeight (height max : number) : color :=
  let t := Math_min (Math_max (js_div height max) (Fin 0)) (Fin 1) in
  if js_lt t (Fin 0.1) then
    let localT := js_div t (Fin 0.1) in
    (lerp (channel0 SAND) (channel0 GRASS) localT,
     lerp (channel1 SAND) (channel1 GRASS) localT,
     lerp (channel2 SAND) (channel2 GRASS) localT)
  else if js_lt t (Fin 0.5) then
    let localT := js_div (js_sub t (Fin 0.1)) (Fin 0.4) in
    (lerp (channel0 GRASS) (channel0 ROCK) localT,
     lerp (channel1 GRASS) (channel1 ROCK) localT,
     lerp (channel2 GRASS) (channel2 ROCK) localT)
  else
    let localT := js_div (js_sub t (Fin 0.5)) (Fin 0.5) in
    (lerp (channel0 ROCK) (channel0 SNOW) localT,
     lerp (channel1 ROCK) (channel1 SNOW) localT,
     lerp (channel2 ROCK) (channel2 SNOW) localT).

(** ** RasterIngestor *)

(** A typed array is a list of its elements.  Reading outside it gives
    [undefined], which [isNaN] treats as [NaN]; writing outside it is
    ignored. *)
Definition typed_get (a : list number) (i : Z) : number :=
  if (i <? 0)%Z then NaN else nth (Z.to_nat i) a NaN.

Fixpoint typed_set (a : list number) (i : nat) (v : number) : list number :=
  match a, i with
  | [], _ => []
  | _ :: tl, O => v :: tl
  | hd :: tl, S i' => hd :: typed_set tl i' v
  end.

(** [for (let i = from; i < from + n; i++) body]. *)
Fixpoint for_loop {St : Type} (n : nat) (from : Z) (body : Z -> St -> St)
  (s : St) : St :=
  match n with
  | O => s
  | S n' => for_loop n' (from + 1)%Z body (body from s)
  end.

Record pass_state : Type := {
  minVal : number;
  maxVal : number;
  newData : list number
}.

Record DemResult : Type := {
  data : list number;
  width : Z;
  height : Z;
  minHeight : number;
  maxHeight : number
}.

(** The no-data filter of the first pass. *)
Definition noData (val : number) : bool :=
  isNaN val || js_lt val (Fin (-12000)) || js_gt val (Fin 12000).

(** The value read for output cell [(x, y)]: nearest-neighbour sampling
    with the safety clamp. *)
Definition sampleAt (rawData : list number) (origWidth origHeight : Z)
  (scale : Q) (y x : Z) : number :=
  let srcX := Qfloor (inject_Z x * scale) in
  let srcY := Qfloor (inject_Z y * scale) in
  let safeX := Z.min (Z.max 0 srcX) (origWidth - 1) in
  let safeY := Z.min (Z.max 0 srcY) (origHeight - 1) in
  let srcIdx := (safeY * origWidth + safeX)%Z in
  typed_get rawData srcIdx.

(** Body of the inner loop of the first pass. *)
Definition cell_body (rawData : list number) (origWidth origHeight : Z)
  (scale : Q) (newWidth : Z) (y x : Z) (s : pass_state) : pass_state :=
  let val := sampleAt rawData origWidth origHeight scale y x in
  if noData val then
    {| minVal := minVal s;
       maxVal := maxVal s;
       newData := typed_set (newData s) (Z.to_nat (y * newWidth + x)) NaN |}
  else
    {| minVal := if js_lt val (minVal s) then val else minVal s;
       maxVal := if js_gt val (maxVal s) then val else maxVal s;
       newData := typed_set (newData s) (Z.to_nat (y * newWidth + x)) val |}.

(** Body of the second pass, for one cell.  The store into the
    [Float32Array] rounds the difference to single precision, which keeps
    0 and the order; that rounding is not modelled. *)
Definition normalize (minVal : number) (v : number) : number :=
  if isNaN v then Fin 0 else js_sub v minVal.

(** The dimensions are cell counts and [targetMaxSize] is a positive
    size (256 unless the caller says otherwise). *)
Definition processRawDemData (rawData : list number) (origWidth origHeight : N)
  (targetMaxSize : positive) : DemResult :=
  let origWidth := Z.of_N origWidth in
  let origHeight := Z.of_N origHeight in
  let targetMaxSize := Zpos targetMaxSize in
  let maxDim := Z.max origWidth origHeight in
  let scale : Q :=
    if (targetMaxSize <? maxDim)%Z
    then inject_Z maxDim / inject_Z targetMaxSize
    else 1 in
  let newWidth := Qfloor (inject_Z origWidth / scale) in
  let newHeight := Qfloor (inject_Z origHeight / scale) in
  let init :=
    {| minVal := PInf;
       maxVal := NInf;
       newData := repeat (Fin 0) (Z.to_nat (newWidth * newHeight)) |} in
  let pass1 :=
    for_loop (Z.to_nat newHeight) 0
      (fun y => for_loop (Z.to_nat newWidth) 0
                  (cell_body rawData origWidth origHeight scale newWidth y))
      init in
  let '(minVal, maxVal) :=
    match minVal pass1 with
    | PInf => (Fin 0, Fin 10)
    | _ => (minVal pass1, maxVal pass1)
    end in
  {| data := map (normalize minVal) (newData pass1);
     width := newWidth;
     height := newHeight;
     minHeight := minVal;
     maxHeight := js_sub maxVal minVal |}.

(** * Part II: the specification's wording *)

(** ** The spec's reading of the volume and of the search *)

(** [volumeBetween(low, high) = max(0, F(high) - F(low))] of section 4.3.
    The source has no function of that name: [calculateHydraulics] inlines
    the expression with [low] fixed to the lower reference, which
    the volume claim below relates to this definition. *)
Definition volumeBetween (low high : Q) : Q :=
  Qmax 0 (calculateAreaIntegral high - calculateAreaIntegral low).

(** The search as section 4.4 words it: at most [n] further midpoints are
    tried from the bracket [[low, high]]; the first midpoint whose area is
    within the tolerance of the target is the answer, and once the budget
    is spent the answer is the midpoint of the bracket that remains. *)
Inductive bisection (target : Q) : nat -> Q -> Q -> Q -> Prop :=
| bisection_exhausted low high :
    bisection target 0 low high ((low + high) / 2)
| bisection_converged n low high mid :
    mid == (low + high) / 2 ->
    Qabs (calculatePolynomialArea mid - target) < 1 ->
    bisection target (S n) low high mid
| bisection_raise_low n low high mid r :
    mid == (low + high) / 2 ->
    ~ Qabs (calculatePolynomialArea mid - target) < 1 ->
    calculatePolynomialArea mid < target ->
    bisection target n mid high r ->
    bisection target (S n) low high r
| bisection_lower_high n low high mid r :
    mid == (low + high) / 2 ->
    ~ Qabs (calculatePolynomialArea mid - target) < 1 ->
    ~ calculatePolynomialArea mid < target ->
    bisection target n low mid r ->
    bisection target (S n) low high r.

(** The target of the search in the order section 4.4 gives: the area of
    the linear model, floored at 0, then converted from km² to m². *)
Definition targetArea_spec (year : Q) : Q :=
  Qmax 0 (YEAR_SLOPE * year + YEAR_INTERCEPT) * 1000000.

Inductive elevationFromYear_spec (year : Q) : Q -> Prop :=
| elevation_short_circuit :
    targetArea_spec year <= 1 ->
    elevationFromYear_spec year 4304
| elevation_searched r :
    ~ targetArea_spec year <= 1 ->
    bisection (targetArea_spec year) 64 4304 4450 r ->
    elevationFromYear_spec year r.

(** The years for which the round trip is stated: the target area lies
    between the area at the lower end of the bracket and the area at the
    second midpoint the search tries, that is for about
    [1891.34 <= year <= 2254.48]. *)
Definition practical_year (year : Q) : Prop :=
  calculatePolynomialArea 4304 <= targetArea year
  /\ targetArea year <= calculatePolynomialArea 4413.5.

(** ** The spec's reading of the colour ramp *)

Definition mix (start end_ t : Q) : Q := start * (1 - t) + end_ * t.

(** The three bands of section 4.5 on a normalised height [t]. *)
Definition ramp (t : Q) : Q * Q * Q :=
  if Qltb t 0.1 then
    let u := t / 0.1 in
    (mix 0.82 0.25 u, mix 0.78 0.55 u, mix 0.55 0.2 u)
  else if Qltb t 0.5 then
    let u := (t - 0.1) / 0.4 in
    (mix 0.25 0.45 u, mix 0.55 0.42 u, mix 0.2 0.38 u)
  else
    let u := (t - 0.5) / 0.5 in
    (mix 0.45 0.95 u, mix 0.42 0.95 u, mix 0.38 1.0 u).

Definition fin_color (c : Q * Q * Q) : color :=
  (Fin (fst (fst c)), Fin (snd (fst c)), Fin (snd c)).

Definition unit_interval (x : Q) : Prop := 0 <= x /\ x <= 1.

(** A colour whose three components are numbers of [[0, 1]]. *)
Definition in_unit_cube (c : color) : Prop :=
  exists r g b : Q,
    c = (Fin r, Fin g, Fin b)
    /\ unit_interval r /\ unit_interval g /\ unit_interval b.

(** ** The spec's reading of the raster ingestion *)

(** Second pass in the words of section 4.1: an invalid cell is filled
    with 0, a valid one is shifted by the minimum. *)
Definition shift_or_fill (minHeight val : number) : number :=
  if noData val then Fin 0 else js_sub val minHeight.

Definition all_noData (rawData : list number) : Prop :=
  Forall (fun v => noData v = true) rawData.

Definition nonneg_height (v : number) : Prop :=
  exists q : Q, v = Fin q /\ 0 <= q.

Definition zero_height (v : number) : Prop :=
  exists q : Q, v = Fin q /\ q == 0.

(** * Part III: definitions used by the proofs *)

(** Value of a finished loop: the returned midpoint, or the midpoint of
    the bracket that remains. *)
Definition result_of (r : loop_result) : Q :=
  match r with
  | Return mid => mid
  | Continue low high => (low + high) / 2
  end.

(** Width of a bracket of width [w] after [n] halvings. *)
Fixpoint halve (n : nat) (w : Q) : Q :=
  match n with
  | O => w
  | S n' => halve n' (w * (1 # 2))
  end.

(** A bound on the slope of the quartic over the bracket. *)
Definition LIPSCHITZ : Q := 100000000000000.

(** [polynomial b - polynomial a = (b - a) * slope_factor a b]. *)
Definition slope_factor (a b : Q) : Q :=
  C4 * (a ^ 3 + a ^ 2 * b + a * b ^ 2 + b ^ 3)
  + C3 * (a ^ 2 + a * b + b ^ 2) + C2 * (a + b) + C1.

(** Coefficients of [slope_factor (u + s) (u + t)] in [s] and [t]: the
    derivatives of the quartic at [u], divided by 1, 2 and 6. *)
Definition taylor1 (u : Q) : Q :=
  4 * C4 * u ^ 3 + 3 * C3 * u ^ 2 + 2 * C2 * u + C1.
Definition taylor2 (u : Q) : Q := 6 * C4 * u ^ 2 + 3 * C3 * u + C2.
Definition taylor3 (u : Q) : Q := 4 * C4 * u + C3.

(** A lower bound of [slope_factor] over [[u, u + h]]. *)
Definition slope_lower (u h : Q) : Q :=
  taylor1 u + Qmin 0 (taylor2 u) * (2 * h) + Qmin 0 (taylor3 u) * (3 * h * h)
  + C4 * (4 * h * h * h).

(** A sufficient test for the quartic to rise over [[u, u + h]], and
    over the [n] unit intervals from the integer [u]. *)
Definition rising_on (u h : Q) : bool := Qle_bool 0 (slope_lower u h).

Fixpoint rising_from (u : Z) (n : nat) : bool :=
  match n with
  | O => true
  | S n' => rising_on (inject_Z u) 1 && rising_from (u + 1)%Z n'
  end.

(** The indices a [for_loop] of [n] rounds visits from [from]. *)
Fixpoint zseq (from : Z) (n : nat) : list Z :=
  match n with
  | O => []
  | S n' => from :: zseq (from + 1)%Z n'
  end.

(** What one sample does to the running minimum and maximum. *)
Definition observe (val : number) (mm : number * number) : number * number :=
  if noData val then mm
  else (if js_lt val (fst mm) then val else fst mm,
        if js_gt val (snd mm) then val else snd mm).

(** What the first pass stores for one sample. *)
Definition mark (val : number) : number := if noData val then NaN else val.

Definition demScale (origWidth origHeight : N) (targetMaxSize : positive) : Q :=
  let maxDim := Z.max (Z.of_N origWidth) (Z.of_N origHeight) in
  if (Zpos targetMaxSize <? maxDim)%Z
  then inject_Z maxDim / inject_Z (Zpos targetMaxSize)
  else 1.

Definition demWidth (origWidth origHeight : N) (targetMaxSize : positive) : Z :=
  Qfloor (inject_Z (Z.of_N origWidth)
          / demScale origWidth origHeight targetMaxSize).

Definition demHeight (origWidth origHeight : N) (targetMaxSize : positive) : Z :=
  Qfloor (inject_Z (Z.of_N origHeight)
          / demScale origWidth origHeight targetMaxSize).

(** The raw values read for [n] rows of [w] output cells from row [y0]. *)
Definition rows (rawData : list number) (origWidth origHeight : Z) (scale : Q)
  (y0 : Z) (n w : nat) : list number :=
  flat_map
    (fun y => map (sampleAt rawData origWidth origHeight scale y) (zseq 0 w))
    (zseq y0 n).

(** The raw values read for the whole output grid, row by row. *)
Definition sampled (rawData : list number) (origWidth origHeight : N)
  (targetMaxSize : positive) : list number :=
  rows rawData (Z.of_N origWidth) (Z.of_N origHeight)
    (demScale origWidth origHeight targetMaxSize) 0
    (Z.to_nat (demHeight origWidth origHeight targetMaxSize))
    (Z.to_nat (demWidth origWidth origHeight targetMaxSize)).

Definition folded (vals : list number) (s : pass_state) : number * number :=
  fold_left (fun acc v => observe v acc) vals (minVal s, maxVal s).

(** The degenerate-input fallback after the first pass. *)
Definition fallback (mm : number * number) : number * number :=
  match fst mm with
  | PInf => (Fin 0, Fin 10)
  | _ => mm
  end.

(** Invariant of the first pass on the samples [seen] so far. *)
Definition min_tracked (seen : list number) (mm : number * number) : Prop :=
  (mm = (PInf, NInf) /\ forall v, In v seen -> noData v = true)
  \/ (exists m : Q,
        fst mm = Fin m /\ In (Fin m) seen /\ noData (Fin m) = false
        /\ forall q : Q, In (Fin q) seen -> noData (Fin q) = false -> m <= q).

(** * Part III-bis: the rest of [utils/math] and its callers *)

(** ** processImageToHeightData *)

(** The canvas is outside the program: [ctx] is [None] when
    [getContext('2d')] gives [null], and otherwise holds the bytes that
    [getImageData] returns for the drawn image (a [Uint8ClampedArray]). *)
Definition byte_value (b : Byte.byte) : Q :=
  inject_Z (Z.of_N (Byte.to_N b)).

Definition rgba_get (rgba : list Byte.byte) (i : Z) : number :=
  if (i <? 0)%Z then NaN
  else match nth_error rgba (Z.to_nat i) with
       | Some b => Fin (byte_value b)
       | None => NaN
       end.

(** Body of the loop over the pixels. *)
Definition pixel_height (rgba : list Byte.byte) (i : Z) : number :=
  let idx := (i * 4)%Z in
  let r := rgba_get rgba idx in
  let g := rgba_get rgba (idx + 1) in
  let b := rgba_get rgba (idx + 2) in
  let brightness :=
    js_add (js_add (js_mul (Fin 0.299) r) (js_mul (Fin 0.587) g))
           (js_mul (Fin 0.114) b) in
  js_div brightness (Fin 255.0).

Definition processImageToHeightData (ctx : option (list Byte.byte))
  (width height : N) : list number :=
  match ctx with
  | None => repeat (Fin 0) (N.to_nat (width * height))
  | Some rgba =>
      let data := repeat (Fin 0) (N.to_nat (width * height)) in
      for_loop (length data) 0
        (fun i data => typed_set data (Z.to_nat i) (pixel_height rgba i))
        data
  end.

(** ** App: loading an image as terrain ([handleUploadDEM]) *)

Module TerrainConfig.
Record t : Type := {
  width : Z;
  depth : Z;
  cellSize : Q;
  maxHeight : Q
}.
End TerrainConfig.

Definition MAX_SIZE : Z := 256.

(** The downscaling of the image size, for an image of positive natural
    size. *)
Definition fitImageSize (imgWidth imgHeight : positive) : Z * Z :=
  let w := Zpos imgWidth in
  let h := Zpos imgHeight in
  if (MAX_SIZE <? w)%Z || (MAX_SIZE <? h)%Z then
    let ratio := inject_Z w / inject_Z h in
    if (h <? w)%Z
    then (MAX_SIZE, Math_round (inject_Z MAX_SIZE / ratio))
    else (Math_round (inject_Z MAX_SIZE * ratio), MAX_SIZE)
  else (w, h).

Definition DEM_MAX_HEIGHT : Q := 50.

(** Steps 1 to 3 of [img.onload]: the configuration and the height data
    handed to [setConfig] and [setHeightData]. *)
Definition imageTerrain (ctx : option (list Byte.byte))
  (imgWidth imgHeight : positive) : TerrainConfig.t * list number :=
  let '(w, h) := fitImageSize imgWidth imgHeight in
  let normalizedData := processImageToHeightData ctx (Z.to_N w) (Z.to_N h) in
  let scaledData :=
    for_loop (length normalizedData) 0
      (fun i scaledData =>
         typed_set scaledData (Z.to_nat i)
           (js_mul (typed_get normalizedData i) (Fin DEM_MAX_HEIGHT)))
      (repeat (Fin 0) (length normalizedData)) in
  ({| TerrainConfig.width := w;
      TerrainConfig.depth := h;
      TerrainConfig.cellSize := 1;
      TerrainConfig.maxHeight := DEM_MAX_HEIGHT |},
   scaledData).

(** ** App: the rising-water animation *)

(** One animation frame: the updater given to [setWaterLevel], paired
    with the value [isAutoRising] has after it. *)
Definition animate (maxHeight prev : Q) : Q * bool :=
  let next := prev + maxHeight / 1000 in
  if Qle_bool (maxHeight + maxHeight * 0.1) next
  then (prev, false)
  else (next, true).

(** [n] frames: the effect keeps requesting frames while [isAutoRising]
    holds. *)
Fixpoint frames (n : nat) (maxHeight : Q) (s : Q * bool) : Q * bool :=
  match n with
  | O => s
  | S n' =>
      if snd s then frames n' maxHeight (animate maxHeight (fst s)) else s
  end.

(** ** App: the statistics recomputed after every change *)

Definition absoluteWaterLevel (minElevation waterLevel : Q) : Q :=
  minElevation + waterLevel.

Definition updateStats (heightDataLength : nat)
  (minElevation waterLevel substanceMass : Q) (stats : SimulationStats)
  : SimulationStats :=
  if (0 <? heightDataLength)%nat
  then calculateHydraulics (absoluteWaterLevel minElevation waterLevel)
         substanceMass
  else stats.

(** ** Overlay: typed elevation and typed year *)

Definition ABS_MIN_ELEVATION : Q := 4304.
Definition ABS_MAX_ELEVATION : Q := 4405.

Definition clampElevation (val : Q) : Q :=
  Qmax ABS_MIN_ELEVATION (Qmin ABS_MAX_ELEVATION val).

(** The text of a number input parses to a finite number or to [NaN]
    ([None]); a handler returns the water level it sets, or [None] when
    it leaves the state alone. *)
Definition handleYearSet (parsed : option Q) (minElevation : Q) : option Q :=
  match parsed with
  | None => None
  | Some y =>
      let targetElevation := getElevationFromYear y in
      let targetElevation := clampElevation targetElevation in
      Some (targetElevation - minElevation)
  end.

(** ** TerrainMesh: the vertex colours *)

(** The loop that finds [maxH]. *)
Definition maxHeightOf (heightData : list number) : number :=
  fold_left (fun maxH v => if js_gt v maxH then v else maxH)
            heightData (Fin 0).

Definition colorMax (heightData : list number) (configMaxHeight : number)
  : number :=
  let maxH := maxHeightOf heightData in
  if js_gt maxH (Fin 0) then maxH else configMaxHeight.

(** [v || 0]: [NaN], [undefined] and zero give 0. *)
Definition or_zero (v : number) : number :=
  match v with
  | NaN => Fin 0
  | Fin q => if Qeq_bool q 0 then Fin 0 else v
  | _ => v
  end.

(** Colour of vertex [i]; reading past the end of [heightData] gives
    [undefined]. *)
Definition vertexColor (heightData : list number) (configMaxHeight : number)
  (i : nat) : color :=
  let h := or_zero (nth i heightData NaN) in
  getColorByHeight h (colorMax heightData configMaxHeight).

(** ** Definitions used by the further proofs *)

(** Invariant of the first pass for the running maximum. *)
Definition max_tracked (seen : list number) (mm : number * number) : Prop :=
  (mm = (PInf, NInf) /\ forall v, In v seen -> noData v = true)
  \/ (exists M : Q,
        snd mm = Fin M /\ In (Fin M) seen /\ noData (Fin M) = false
        /\ forall q : Q, In (Fin q) seen -> noData (Fin q) = false -> q <= M).

Definition unit_height (v : number) : Prop :=
  exists q : Q, v = Fin q /\ 0 <= q /\ q <= 1.

(** * Part III-ter: the hydraulic core in binary64

    The same functions once more, on the numbers the program runs on.  A
    JavaScript [number] is an IEEE 754 binary64 value, here a primitive
    [float]: [+], [-], [*], [/] and the comparisons are the binary64
    operations, rounding to nearest with ties to even, and a decimal literal
    denotes the binary64 value nearest to it, as it does in the source.
    Overflow gives an infinity, [Infinity - Infinity] is [NaN] and every
    comparison with [NaN] is false. *)

Module Binary64.

Local Open Scope float_scope.

(** An integer as a number (exact below [2 ^ 53]). *)
Definition of_Z (z : Z) : float :=
  SF2Prim (binary_normalize prec emax z 0 false).

(** [x ** n] for a literal exponent [n].  The language leaves the
    precision of exponentiation to the implementation ("an
    implementation-approximated value"); the model takes the exact power
    rounded once to the nearest binary64 value, the result an accurate
    implementation gives. *)
Definition pow (x : float) (n : positive) : float :=
  match Prim2SF x with
  | S754_nan => nan
  | S754_zero s => if s && Z.odd (Zpos n) then neg_zero else zero
  | S754_infinity s =>
      if s && Z.odd (Zpos n) then neg_infinity else infinity
  | S754_finite s m e =>
      SF2Prim (binary_normalize prec emax
                 (Z.pow_pos (cond_Zopp s (Zpos m)) n) (e * Zpos n) false)
  end.

(** [Math.max]: [NaN] as soon as one argument is, and [+0] above [-0]. *)
Definition Math_max (a b : float) : float :=
  if is_nan a || is_nan b then nan
  else if a <? b then b
  else if b <? a then a
  else if get_sign a then b else a.

(** [Math.round]: the nearest integer, halves going up; [-0] for a
    negative value that rounds to zero. *)
Definition Math_round (x : float) : float :=
  match Prim2SF x with
  | S754_finite s m e =>
      if (0 <=? e)%Z then x
      else
        SF2Prim (binary_normalize prec emax
                   ((2 * cond_Zopp s (Zpos m) + 2 ^ (- e)) / 2 ^ (- e + 1))%Z
                   0 s)
  | _ => x
  end.

(** [Math.floor]. *)
Definition Math_floor (x : float) : float :=
  match Prim2SF x with
  | S754_finite s m e =>
      if (0 <=? e)%Z then x
      else
        SF2Prim (binary_normalize prec emax
                   (cond_Zopp s (Zpos m) / 2 ^ (- e))%Z 0 s)
  | _ => x
  end.

Definition C4 : float := -10.984357780264.
Definition C3 : float := 191820.49752582.
Definition C2 : float := -1256158182.19156.
Definition C1 : float := 3656024105511.9.
Definition C0 : float := -3990277863318550.

Definition YEAR_SLOPE : float := 0.7903.
Definition YEAR_INTERCEPT : float := -1483.3.

Definition calculatePolynomialArea (x : float) : float :=
  let term4 := C4 * pow x 4 in
  let term3 := C3 * pow x 3 in
  let term2 := C2 * pow x 2 in
  let term1 := C1 * x in
  let term0 := C0 in
  let area := term4 + term3 + term2 + term1 + term0 in
  Math_max 0 area.

Definition calculateAreaIntegral (x : float) : float :=
  let term5 := (C4 / 5) * pow x 5 in
  let term4 := (C3 / 4) * pow x 4 in
  let term3 := (C2 / 3) * pow x 3 in
  let term2 := (C1 / 2) * pow x 2 in
  let term1 := C0 * x in
  term5 + term4 + term3 + term2 + term1.

Definition calculateYearFromArea (areaKm2 : float) : float :=
  (areaKm2 - YEAR_INTERCEPT) / YEAR_SLOPE.

Definition epsilon : float := 1.0.

Inductive loop_result : Type :=
| Return (mid : float)
| Continue (low high : float).

Definition search_body (targetAreaM2 low high : float) : loop_result :=
  let mid := (low + high) / 2 in
  let area := calculatePolynomialArea mid in
  if abs (area - targetAreaM2) <? epsilon then Return mid
  else if area <? targetAreaM2 then Continue mid high
  else Continue low mid.

Fixpoint search_loop (n : nat) (targetAreaM2 low high : float)
  : loop_result :=
  match n with
  | O => Continue low high
  | S n' =>
      match search_body targetAreaM2 low high with
      | Return mid => Return mid
      | Continue low' high' => search_loop n' targetAreaM2 low' high'
      end
  end.

Definition targetArea (year : float) : float :=
  let targetAreaKm2 := YEAR_SLOPE * year + YEAR_INTERCEPT in
  Math_max 0 (targetAreaKm2 * 1000000).

Definition getElevationFromYear (year : float) : float :=
  let targetAreaM2 := targetArea year in
  let low := 4304 in
  let high := 4450 in
  if targetAreaM2 <=? 1 then low
  else
    match search_loop 64 targetAreaM2 low high with
    | Return mid => mid
    | Continue low' high' => (low' + high') / 2
    end.

Record SimulationStats : Type := {
  waterLevel : float;
  surfaceArea : float;
  volume : float;
  concentration : float;
  estimatedYear : float
}.

Definition LOWER_LIMIT : float := 4304.

Definition calculateHydraulics (absoluteElevation substanceMassTons : float)
  : SimulationStats :=
  let surfaceAreaM2 := calculatePolynomialArea absoluteElevation in
  let volumeM3 :=
    if LOWER_LIMIT <? absoluteElevation
    then calculateAreaIntegral absoluteElevation
         - calculateAreaIntegral LOWER_LIMIT
    else 0 in
  let volumeM3 := Math_max 0 volumeM3 in
  let concentration :=
    if 0.001 <? volumeM3
    then (substanceMassTons * 1000000) / volumeM3
    else 0 in
  let surfaceAreaKm2 := surfaceAreaM2 / 1000000 in
  let estimatedYear := Math_round (calculateYearFromArea surfaceAreaKm2) in
  {| waterLevel := absoluteElevation;
     surfaceArea := surfaceAreaM2;
     volume := volumeM3;
     concentration := concentration;
     estimatedYear := estimatedYear |}.

(** The year recovered from the elevation found for [year]: the round
    trip of the spec. *)
Definition roundTrip (year : float) : float :=
  calculateYearFromArea
    (calculatePolynomialArea (getElevationFromYear year) / 1000000).

(** [newWidth] and [newHeight] of [processRawDemData]: the side of the
    output grid for a side of [orig] cells of a raster whose longer side
    is [maxDim]. *)
Definition newSide (orig maxDim targetMaxSize : float) : float :=
  let scale := if targetMaxSize <? maxDim then maxDim / targetMaxSize else 1 in
  Math_floor (orig / scale).

(** ** Definitions used by the proofs *)



(** Every value of the list is below all the later ones. *)
Fixpoint rising (l : list float) : bool :=
  match l with
  | [] => true
  | v :: l' => forallb (fun w => v <? w) l' && rising l'
  end.

(** The [n] whole numbers [from], [from + 1], ... *)
Definition whole_numbers (from : Z) (n : nat) : list float :=
  map of_Z (zseq from n).

End Binary64.

(** * Part IV: basic facts *)

(** Closed facts about the program are settled by running it. *)
Ltac by_computation := vm_compute; first [reflexivity | discriminate].

Ltac each_by_computation :=
  repeat match goal with |- _ /\ _ => split end; by_computation.

Lemma Qltb_lt (x y : Q) : Qltb x y = true <-> x < y.
Proof.
  unfold Qltb. rewrite negb_true_iff.
  split; intro H.
  - apply Qnot_le_lt. intro Hle. apply Qle_bool_iff in Hle. congruence.
  - destruct (Qle_bool y x) eqn:E; [|reflexivity].
    apply Qle_bool_iff in E. exfalso. apply (Qlt_not_le _ _ H E).
Qed.

Lemma Qltb_ge (x y : Q) : Qltb x y = false <-> y <= x.
Proof.
  unfold Qltb. rewrite negb_false_iff. apply Qle_bool_iff.
Qed.

Lemma Qle_bool_gt (x y : Q) : Qle_bool x y = false <-> y < x.
Proof.
  split; intro H.
  - apply Qnot_le_lt. intro Hle. apply Qle_bool_iff in Hle. congruence.
  - destruct (Qle_bool x y) eqn:E; [|reflexivity].
    apply Qle_bool_iff in E. exfalso. apply (Qlt_not_le _ _ H E).
Qed.

Lemma half_eq (x : Q) : x / 2 == x * (1 # 2).
Proof. reflexivity. Qed.

#[export] Instance polynomial_proper : Proper (Qeq ==> Qeq) polynomial.
Proof. intros x y H. unfold polynomial. rewrite H. reflexivity. Qed.

#[export] Instance calculatePolynomialArea_proper :
  Proper (Qeq ==> Qeq) calculatePolynomialArea.
Proof. intros x y H. unfold calculatePolynomialArea. rewrite H. reflexivity. Qed.

(** * Part V: the hydraulic model *)

Lemma area_nonneg (x : Q) : 0 <= calculatePolynomialArea x.
Proof. unfold calculatePolynomialArea. apply Q.le_max_l. Qed.

Lemma volume_eq (e m : Q) :
  volume (calculateHydraulics e m) =
  Qmax 0 (if Qltb LOWER_LIMIT e
          then calculateAreaIntegral e - calculateAreaIntegral LOWER_LIMIT
          else 0).
Proof. reflexivity. Qed.

Lemma concentration_eq (e m : Q) :
  concentration (calculateHydraulics e m) =
  if Qltb 0.001 (volume (calculateHydraulics e m))
  then (m * 1000000) / volume (calculateHydraulics e m)
  else 0.
Proof. reflexivity. Qed.

(** C8.  The volume is zero on the degenerate and the below-reference
    cases: [volumeBetween L L] is 0 for every [L], the volume of the
    sample is 0 at every elevation at or below 4304, and above 4304 it is
    [volumeBetween 4304] of the elevation. *)
Theorem volume_zero_cases :
  (forall L : Q, volumeBetween L L == 0)
  /\ (forall e m : Q, e <= 4304 -> volume (calculateHydraulics e m) = 0)
  /\ (forall e m : Q, 4304 < e ->
        volume (calculateHydraulics e m) = volumeBetween 4304 e).
Proof.
  split; [|split].
  - intro L. unfold volumeBetween.
    rewrite Q.max_l; [reflexivity|]. lra.
  - intros e m He. rewrite volume_eq.
    apply Qltb_ge in He. unfold LOWER_LIMIT. rewrite He. reflexivity.
  - intros e m He. rewrite volume_eq.
    apply Qltb_lt in He. unfold LOWER_LIMIT. rewrite He. reflexivity.
Qed.

Lemma volume_zero_cases_witness :
  volumeBetween 4310 4310 == 0
  /\ volume (calculateHydraulics 4300 1000) = 0
  /\ volume (calculateHydraulics 4310 1000) = volumeBetween 4304 4310.
Proof.
  destruct volume_zero_cases as (H1 & H2 & H3).
  split; [apply H1|split].
  - apply H2. discriminate.
  - apply H3. reflexivity.
Defined.

(** C1, as the spec states it, fails: at elevation 4300 the area is 0 and
    the sample still carries an estimated year, 1877. *)
Lemma estimatedYear_defined_at_zero_area :
  calculatePolynomialArea 4300 <= 0
  /\ estimatedYear (calculateHydraulics 4300 1000) = Some 1877%Z
  /\ estimatedYear (calculateHydraulics 4300 1000) <> None.
Proof. each_by_computation. Qed.

(** C1, amended.  At every elevation the sample carries an estimated
    year, the rounded year of the area in km²; where the area is at most
    0 that year is 1877. *)
Theorem estimatedYear_always_present (e m : Q) :
  estimatedYear (calculateHydraulics e m)
  = Some (Math_round
            (calculateYearFromArea (calculatePolynomialArea e / 1000000)))
  /\ (calculatePolynomialArea e <= 0 ->
      estimatedYear (calculateHydraulics e m) = Some 1877%Z).
Proof.
  split; [reflexivity|].
  intro H. cbn [calculateHydraulics estimatedYear]. f_equal.
  assert (E : calculatePolynomialArea e == 0).
  { apply Qle_antisym; [exact H|apply area_nonneg]. }
  unfold Math_round.
  transitivity (Qfloor (calculateYearFromArea (0 / 1000000) + 0.5)).
  - apply Qfloor_comp. unfold calculateYearFromArea. rewrite E. reflexivity.
  - vm_compute. reflexivity.
Qed.

Lemma estimatedYear_always_present_witness :
  calculatePolynomialArea 0 <= 0
  /\ estimatedYear (calculateHydraulics 0 0) = Some 1877%Z.
Proof.
  assert (H : calculatePolynomialArea 0 <= 0) by (vm_compute; discriminate).
  split; [exact H|].
  exact (proj2 (estimatedYear_always_present 0 0) H).
Defined.

(** C2 fails on the code: inside the bracket [[4304, 4450]] the area
    falls from elevation 4400 to elevation 4440, and it is 0 at 4450. *)
Theorem area_not_monotone_on_bracket :
  4304 <= 4400 /\ 4400 <= 4440 /\ 4440 <= 4450
  /\ calculatePolynomialArea 4440 < calculatePolynomialArea 4400
  /\ calculatePolynomialArea 4450 == 0.
Proof. each_by_computation. Qed.

(** * Part VI: the binary search *)

Lemma getElevationFromYear_eq (year : Q) :
  getElevationFromYear year =
  if Qle_bool (targetArea year) 1 then 4304
  else result_of (search_loop 64 (targetArea year) 4304 4450).
Proof. reflexivity. Qed.

Lemma search_loop_S (n : nat) (t low high : Q) :
  search_loop (S n) t low high =
  match search_body t low high with
  | Return mid => Return mid
  | Continue low' high' => search_loop n t low' high'
  end.
Proof. reflexivity. Qed.

(** The three ways out of the loop body. *)
Lemma search_body_cases (t low high : Q) :
  let mid := Qred ((low + high) / 2) in
  (search_body t low high = Return mid
   /\ Qabs (calculatePolynomialArea mid - t) < 1)
  \/ (search_body t low high = Continue mid high
      /\ ~ Qabs (calculatePolynomialArea mid - t) < 1
      /\ calculatePolynomialArea mid < t)
  \/ (search_body t low high = Continue low mid
      /\ ~ Qabs (calculatePolynomialArea mid - t) < 1
      /\ t <= calculatePolynomialArea mid).
Proof.
  intro mid. unfold search_body. fold mid. unfold epsilon.
  destruct (Qltb (Qabs (calculatePolynomialArea mid - t)) 1) eqn:E1.
  - left. split; [reflexivity|]. now apply Qltb_lt.
  - apply Qltb_ge in E1.
    destruct (Qltb (calculatePolynomialArea mid) t) eqn:E2.
    + right; left. split; [reflexivity|]. split.
      * intro H. apply (Qlt_not_le _ _ H E1).
      * now apply Qltb_lt.
    + right; right. split; [reflexivity|]. split.
      * intro H. apply (Qlt_not_le _ _ H E1).
      * now apply Qltb_ge.
Qed.

Lemma midpoint_eq (low high : Q) :
  Qred ((low + high) / 2) == (low + high) * (1 # 2).
Proof. rewrite Qred_correct. apply half_eq. Qed.

(** Case analysis on one round of the loop, with the value of the
    midpoint at hand for linear arithmetic. *)
Ltac loop_round t low high E H :=
  rewrite search_loop_S;
  let Hm := fresh "Hmid" in
  pose proof (midpoint_eq low high) as Hm;
  destruct (search_body_cases t low high) as [[E H]|[[E H]|[E H]]];
  rewrite E; clear E.

Lemma search_loop_in_bracket (n : nat) :
  forall t low high, low <= high ->
  low <= result_of (search_loop n t low high)
  /\ result_of (search_loop n t low high) <= high.
Proof.
  induction n as [|n IH]; intros t low high Hle.
  - cbn [search_loop result_of]. rewrite half_eq. split; lra.
  - loop_round t low high E H.
    + cbn [result_of]. split; lra.
    + destruct (IH t (Qred ((low + high) / 2)) high) as [H1 H2]; [lra|].
      split; lra.
    + destruct (IH t low (Qred ((low + high) / 2))) as [H1 H2]; [lra|].
      split; lra.
Qed.

(** C10.  Bracket invariant: for every year the elevation returned by
    [getElevationFromYear] lies in the closed interval [[4304, 4450]]. *)
Theorem getElevationFromYear_in_bracket (year : Q) :
  4304 <= getElevationFromYear year /\ getElevationFromYear year <= 4450.
Proof.
  rewrite getElevationFromYear_eq.
  destruct (Qle_bool (targetArea year) 1).
  - split; discriminate.
  - apply search_loop_in_bracket. discriminate.
Qed.

Lemma search_loop_bisection (n : nat) :
  forall t low high,
  bisection t n low high (result_of (search_loop n t low high)).
Proof.
  induction n as [|n IH]; intros t low high.
  - cbn [search_loop result_of]. constructor.
  - loop_round t low high E H.
    + cbn [result_of].
      apply bisection_converged; [apply Qred_correct|assumption].
    + destruct H as [H1 H2].
      apply (bisection_raise_low t n low high (Qred ((low + high) / 2)));
        [apply Qred_correct|assumption|assumption|apply IH].
    + destruct H as [H1 H2].
      apply (bisection_lower_high t n low high (Qred ((low + high) / 2)));
        [apply Qred_correct|assumption| |apply IH].
      intro Hlt. apply (Qlt_not_le _ _ Hlt H2).
Qed.

Lemma area_test_proper (t m m' : Q) :
  m == m' ->
  (Qabs (calculatePolynomialArea m - t) < 1
   <-> Qabs (calculatePolynomialArea m' - t) < 1)
  /\ (calculatePolynomialArea m < t <-> calculatePolynomialArea m' < t).
Proof. intro E. rewrite E. split; reflexivity. Qed.

(** The wording of the spec leaves no choice: two runs of the search
    from equal brackets give equal answers. *)
Lemma bisection_functional (t : Q) (n : nat) (low high r : Q) :
  bisection t n low high r ->
  forall low' high' r',
  low == low' -> high == high' ->
  bisection t n low' high' r' -> r == r'.
Proof.
  induction 1 as [low high
                 |n low high mid Hmid Hconv
                 |n low high mid r Hmid Hnot Hlt Hrec IH
                 |n low high mid r Hmid Hnot Hge Hrec IH];
    intros low' high' r' El Eh Hother; inversion Hother; subst;
    try match goal with
        | Hm' : ?m' == (low' + high') / 2 |- _ =>
            assert (Em : mid == m') by (rewrite Hmid, Hm', El, Eh; reflexivity);
            destruct (area_test_proper t mid m' Em) as [Hc Hl]
        end;
    try tauto.
  - rewrite El, Eh. reflexivity.
  - apply (IH _ _ _ Em Eh). assumption.
  - apply (IH _ _ _ El Em). assumption.
Qed.

Lemma targetArea_spec_eq (year : Q) : targetArea year == targetArea_spec year.
Proof.
  unfold targetArea, targetArea_spec.
  set (km2 := YEAR_SLOPE * year + YEAR_INTERCEPT).
  destruct (Q.max_spec 0 km2) as [[H E]|[H E]]; rewrite E.
  - apply Q.max_r. lra.
  - rewrite Q.max_l by lra. ring.
Qed.

(** The search does not tell equal targets apart. *)
Lemma bisection_target (t t' : Q) (n : nat) (low high r : Q) :
  t == t' -> bisection t n low high r -> bisection t' n low high r.
Proof.
  intros Et Hb.
  induction Hb as [low high
                  |n low high mid Hmid Hconv
                  |n low high mid r Hmid Hnot Hlt Hrec IH
                  |n low high mid r Hmid Hnot Hge Hrec IH].
  - constructor.
  - apply bisection_converged; [assumption|]. now rewrite <- Et.
  - apply (bisection_raise_low t' n low high mid); try assumption.
    + now rewrite <- Et.
    + now rewrite <- Et.
  - apply (bisection_lower_high t' n low high mid); try assumption.
    + now rewrite <- Et.
    + now rewrite <- Et.
Qed.

(** C4.  [getElevationFromYear] is a total function and computes what
    section 4.4 describes: the lower bound 4304 when the target area,
    floored at 0 and in m², is at most 1; otherwise the answer of the
    bounded search of at most 64 rounds over [[4304, 4450]], which is the
    first midpoint whose area is within 1 m² of the target or, once the
    rounds are spent, the midpoint of the bracket that remains. *)
Theorem getElevationFromYear_follows_spec (year : Q) :
  elevationFromYear_spec year (getElevationFromYear year).
Proof.
  rewrite getElevationFromYear_eq.
  pose proof (targetArea_spec_eq year) as Et.
  destruct (Qle_bool (targetArea year) 1) eqn:E.
  - apply elevation_short_circuit.
    apply Qle_bool_iff in E. now rewrite <- Et.
  - apply Qle_bool_gt in E. apply elevation_searched.
    + intro H. rewrite <- Et in H. apply (Qlt_not_le _ _ E H).
    + apply (bisection_target (targetArea year)); [exact Et|].
      apply search_loop_bisection.
Qed.

(** * Part VII: the round trip year -> elevation -> area -> year *)

Lemma polynomial_difference (a b : Q) :
  polynomial b - polynomial a == (b - a) * slope_factor a b.
Proof. unfold polynomial, slope_factor. ring. Qed.

Lemma product_bounds (x y lo1 hi1 lo2 hi2 : Q) :
  0 <= lo1 -> lo1 <= x -> x <= hi1 -> 0 <= lo2 -> lo2 <= y -> y <= hi2 ->
  lo1 * lo2 <= x * y /\ x * y <= hi1 * hi2.
Proof. intros. split; nra. Qed.

Lemma slope_factor_bounded (a b : Q) :
  4304 <= a -> a <= 4450 -> 4304 <= b -> b <= 4450 ->
  - LIPSCHITZ <= slope_factor a b /\ slope_factor a b <= LIPSCHITZ.
Proof.
  intros Ha1 Ha2 Hb1 Hb2.
  destruct (product_bounds a a 4304 4450 4304 4450) as [Haa1 Haa2]; try lra.
  destruct (product_bounds a b 4304 4450 4304 4450) as [Hab1 Hab2]; try lra.
  destruct (product_bounds b b 4304 4450 4304 4450) as [Hbb1 Hbb2]; try lra.
  destruct (product_bounds (a * a) a (4304 * 4304) (4450 * 4450) 4304 4450)
    as [Haaa1 Haaa2]; try lra.
  destruct (product_bounds (a * a) b (4304 * 4304) (4450 * 4450) 4304 4450)
    as [Haab1 Haab2]; try lra.
  destruct (product_bounds (b * b) a (4304 * 4304) (4450 * 4450) 4304 4450)
    as [Hbba1 Hbba2]; try lra.
  destruct (product_bounds (b * b) b (4304 * 4304) (4450 * 4450) 4304 4450)
    as [Hbbb1 Hbbb2]; try lra.
  assert (E : slope_factor a b ==
              C4 * (a * a * a + a * a * b + b * b * a + b * b * b)
              + C3 * (a * a + a * b + b * b) + C2 * (a + b) + C1)
    by (unfold slope_factor; ring).
  rewrite E. unfold LIPSCHITZ, C4, C3, C2, C1.
  split; lra.
Qed.

Lemma polynomial_lipschitz (a b : Q) :
  4304 <= a -> a <= b -> b <= 4450 ->
  polynomial b - polynomial a <= LIPSCHITZ * (b - a)
  /\ polynomial a - polynomial b <= LIPSCHITZ * (b - a).
Proof.
  intros Ha Hab Hb.
  destruct (slope_factor_bounded a b) as [Hlo Hhi]; try lra.
  pose proof (polynomial_difference a b) as E.
  set (g := slope_factor a b) in *.
  unfold LIPSCHITZ in *.
  split; nra.
Qed.

(** The clamp does not steepen the quartic. *)
Lemma area_lipschitz (a b : Q) :
  4304 <= a -> a <= b -> b <= 4450 ->
  calculatePolynomialArea b - calculatePolynomialArea a <= LIPSCHITZ * (b - a)
  /\ calculatePolynomialArea a - calculatePolynomialArea b
     <= LIPSCHITZ * (b - a).
Proof.
  intros Ha Hab Hb.
  destruct (polynomial_lipschitz a b Ha Hab Hb) as [H1 H2].
  assert (HL : 0 <= LIPSCHITZ * (b - a)) by (unfold LIPSCHITZ; nra).
  unfold calculatePolynomialArea.
  destruct (Q.max_spec 0 (polynomial a)) as [[? Ea]|[? Ea]];
  destruct (Q.max_spec 0 (polynomial b)) as [[? Eb]|[? Eb]];
  rewrite Ea, Eb; split; lra.
Qed.

(** Once the target lies between the areas at the two ends of the
    bracket, the search either stops within the tolerance or ends in a
    bracket so narrow that the area at its midpoint is close to the
    target.  No monotonicity is used. *)
Lemma search_loop_converges (n : nat) :
  forall t low high w,
  4304 <= low -> low <= high -> high <= 4450 ->
  calculatePolynomialArea low <= t -> t <= calculatePolynomialArea high ->
  high - low <= w ->
  Qabs (calculatePolynomialArea (result_of (search_loop n t low high)) - t) < 1
  \/ Qabs (calculatePolynomialArea (result_of (search_loop n t low high)) - t)
     <= LIPSCHITZ * halve n w.
Proof.
  induction n as [|n IH]; intros t low high w Hlo Hle Hhi Hal Hah Hw.
  - right. cbn [search_loop result_of halve].
    pose proof (half_eq (low + high)) as Hr.
    set (r := (low + high) / 2) in *.
    destruct (area_lipschitz low r) as [H1 _]; try lra.
    destruct (area_lipschitz r high) as [H2 _]; try lra.
    apply Qabs_Qle_condition. unfold LIPSCHITZ in *. split; lra.
  - cbn [halve]. loop_round t low high E H.
    + left. exact H.
    + destruct H as [_ H]. apply IH; lra.
    + destruct H as [_ H]. apply IH; lra.
Qed.

Lemma targetArea_positive (year : Q) :
  0 < targetArea year ->
  targetArea year == (YEAR_SLOPE * year + YEAR_INTERCEPT) * 1000000.
Proof.
  unfold targetArea. intro H.
  destruct (Q.max_spec 0 ((YEAR_SLOPE * year + YEAR_INTERCEPT) * 1000000))
    as [[_ E]|[_ E]]; rewrite E in *; [reflexivity|].
  exfalso. apply (Qlt_irrefl 0). exact H.
Qed.

(** The error in years is the error in m² through the linear model. *)
Lemma round_trip_error (year a : Q) :
  0 < targetArea year ->
  calculateYearFromArea (a / 1000000) - year
  == (a - targetArea year) * (1 # 790300).
Proof.
  intro H. rewrite (targetArea_positive year H).
  unfold calculateYearFromArea, YEAR_SLOPE, YEAR_INTERCEPT. field.
Qed.

Lemma area_4304 : 11422190 <= calculatePolynomialArea 4304.
Proof. vm_compute. discriminate. Qed.

Lemma search_reaches_target (year : Q) :
  practical_year year ->
  Qabs (calculatePolynomialArea (getElevationFromYear year) - targetArea year)
  < 1.
Proof.
  intros [Hlo Hhi].
  pose proof area_4304 as H0.
  rewrite getElevationFromYear_eq.
  set (t := targetArea year) in *.
  assert (E : Qle_bool t 1 = false) by (apply Qle_bool_gt; lra).
  rewrite E. clear E.
  assert (Hfin : forall n low high w,
             4304 <= low -> low <= high -> high <= 4450 ->
             calculatePolynomialArea low <= t ->
             t <= calculatePolynomialArea high ->
             high - low <= w -> LIPSCHITZ * halve n w < 1 ->
             Qabs (calculatePolynomialArea
                     (result_of (search_loop n t low high)) - t) < 1).
  { intros n low high w ? ? ? ? ? ? Hsmall.
    destruct (search_loop_converges n t low high w) as [Hc|Hc]; try assumption.
    eapply Qle_lt_trans; eassumption. }
  change 64%nat with (S (S 62)).
  loop_round t 4304 4450 E H.
  - exact H.
  - destruct H as [_ H].
    set (mid1 := Qred ((4304 + 4450) / 2)) in *.
    loop_round t mid1 4450 E H'.
    + exact H'.
    + destruct H' as [_ H']. exfalso.
      assert (Emid : Qred ((mid1 + 4450) / 2) == 4413.5)
        by (rewrite (midpoint_eq mid1 4450); lra).
      rewrite Emid in H'. lra.
    + destruct H' as [_ H'].
      apply (Hfin 62%nat mid1 _ 36.5); try lra.
      vm_compute. reflexivity.
  - destruct H as [_ H].
    apply (Hfin 63%nat 4304 _ 73); try lra.
    vm_compute. reflexivity.
Qed.

(** In exact arithmetic the round trip holds on the practical range, the
    years whose target lies between the areas at 4304 and at 4413.5: the
    year computed back from the area (in km²) at the elevation
    [getElevationFromYear] returns differs from the year by less than
    [1 / 790300], the 1 m² tolerance carried through the linear model.
    What the program does in binary64 is in Part XV. *)
Lemma year_round_trip (year : Q) :
  practical_year year ->
  Qabs (calculateYearFromArea
          (calculatePolynomialArea (getElevationFromYear year) / 1000000)
        - year) < 1 # 790300.
Proof.
  intro Hp.
  pose proof (search_reaches_target year Hp) as H.
  destruct Hp as [Hlo _]. pose proof area_4304 as H0.
  rewrite round_trip_error by lra.
  apply Qabs_Qlt_condition in H. destruct H as [H1 H2].
  apply Qabs_Qlt_condition. split; lra.
Qed.

Lemma year_round_trip_witness :
  practical_year 2024
  /\ Qabs (calculateYearFromArea
             (calculatePolynomialArea (getElevationFromYear 2024) / 1000000)
           - 2024) < 1 # 790300.
Proof.
  assert (H : practical_year 2024)
    by (split; vm_compute; discriminate).
  split; [exact H|]. apply (year_round_trip 2024 H).
Defined.

(** Every year from 1892 to 2254 is in the practical range. *)
Lemma practical_years (year : Q) :
  1892 <= year -> year <= 2254 -> practical_year year.
Proof.
  intros H1 H2. unfold practical_year.
  assert (Ha : calculatePolynomialArea 4304 <= 11947600)
    by (vm_compute; discriminate).
  assert (Hb : 298036200 <= calculatePolynomialArea 4413.5)
    by (vm_compute; discriminate).
  assert (Ht : targetArea year
               == (YEAR_SLOPE * year + YEAR_INTERCEPT) * 1000000).
  { unfold targetArea. apply Q.max_r. unfold YEAR_SLOPE, YEAR_INTERCEPT. lra. }
  rewrite Ht. unfold YEAR_SLOPE, YEAR_INTERCEPT. split; lra.
Qed.

(** Outside the practical range the search does not invert the area.
    Below it the target is smaller than the area at 4304: the search
    closes in on 4304 and the year read back is about 1891.3. *)
Lemma round_trip_below_range :
  targetArea 1880 < calculatePolynomialArea 4304
  /\ getElevationFromYear 1880 < 4304.000001
  /\ 1891 < calculateYearFromArea
              (calculatePolynomialArea (getElevationFromYear 1880) / 1000000).
Proof. each_by_computation. Qed.

(** Above it the search is misled by the falling branch of the area: for
    the year 2260 the target, 302.778 km², is reached below elevation
    4400, yet the search closes in on 4450, where the area is 0. *)
Lemma search_misled_by_falling_area :
  targetArea 2260 == 302778000
  /\ targetArea 2260 < calculatePolynomialArea 4400
  /\ 4449 < getElevationFromYear 2260
  /\ calculatePolynomialArea (getElevationFromYear 2260) == 0.
Proof. each_by_computation. Qed.

(** ** Where the area does rise *)

Lemma slope_factor_shift (u s t : Q) :
  slope_factor (u + s) (u + t)
  == taylor1 u + taylor2 u * (s + t) + taylor3 u * (s * s + s * t + t * t)
     + C4 * (s * s * s + s * s * t + s * t * t + t * t * t).
Proof. unfold slope_factor, taylor1, taylor2, taylor3. ring. Qed.

Lemma min0_bound (c x m : Q) :
  0 <= x -> x <= m -> Qmin 0 c * m <= c * x.
Proof.
  intros Hx Hm.
  destruct (Q.min_spec 0 c) as [[Hc E]|[Hc E]]; rewrite E; nra.
Qed.

Lemma slope_lower_bound (u h s t : Q) :
  0 <= s -> s <= h -> 0 <= t -> t <= h ->
  slope_lower u h <= slope_factor (u + s) (u + t).
Proof.
  intros Hs0 Hs Ht0 Ht.
  rewrite slope_factor_shift. unfold slope_lower.
  assert (Hh : 0 <= h) by lra.
  destruct (product_bounds s s 0 h 0 h) as [Hss0 Hss]; try lra.
  destruct (product_bounds s t 0 h 0 h) as [Hst0 Hst]; try lra.
  destruct (product_bounds t t 0 h 0 h) as [Htt0 Htt]; try lra.
  destruct (product_bounds (s * s) s 0 (h * h) 0 h) as [Ha0 Ha]; try lra.
  destruct (product_bounds (s * s) t 0 (h * h) 0 h) as [Hb0 Hb]; try lra.
  destruct (product_bounds s (t * t) 0 h 0 (h * h)) as [Hc0 Hc]; try lra.
  destruct (product_bounds (t * t) t 0 (h * h) 0 h) as [Hd0 Hd]; try lra.
  pose proof (min0_bound (taylor2 u) (s + t) (2 * h)) as B2.
  pose proof (min0_bound (taylor3 u) (s * s + s * t + t * t) (3 * h * h))
    as B3.
  assert (B4 : C4 * (4 * h * h * h)
               <= C4 * (s * s * s + s * s * t + s * t * t + t * t * t)).
  { unfold C4.
    assert (s * s * s + s * s * t + s * t * t + t * t * t <= 4 * h * h * h).
    { setoid_replace (s * t * t) with (s * (t * t)) by ring.
      setoid_replace (4 * h * h * h)
        with (h * h * h + h * h * h + h * (h * h) + h * h * h) by ring.
      lra. }
    lra. }
  assert (0 <= s * s + s * t + t * t) by lra.
  assert (s * s + s * t + t * t <= 3 * h * h) by lra.
  specialize (B2 ltac:(lra) ltac:(lra)).
  specialize (B3 ltac:(lra) ltac:(lra)).
  lra.
Qed.

Lemma rising_on_sound (u h a b : Q) :
  rising_on u h = true ->
  u <= a -> a <= b -> b <= u + h -> polynomial a <= polynomial b.
Proof.
  unfold rising_on. intros Hr Ha Hab Hb. apply Qle_bool_iff in Hr.
  pose proof (slope_lower_bound u h (a - u) (b - u)) as Hs.
  assert (Ea : u + (a - u) == a) by ring.
  assert (Eb : u + (b - u) == b) by ring.
  assert (Hg : slope_factor (u + (a - u)) (u + (b - u)) == slope_factor a b).
  { unfold slope_factor. rewrite Ea, Eb. reflexivity. }
  rewrite Hg in Hs.
  specialize (Hs ltac:(lra) ltac:(lra) ltac:(lra) ltac:(lra)).
  pose proof (polynomial_difference a b) as E.
  set (g := slope_factor a b) in *.
  assert (0 <= g) by lra.
  nra.
Qed.

Lemma rising_from_sound (n : nat) :
  forall (u : Z) (a b : Q),
  rising_from u n = true ->
  inject_Z u <= a -> a <= b -> b <= inject_Z u + inject_Z (Z.of_nat n) ->
  polynomial a <= polynomial b.
Proof.
  induction n as [|n IH]; intros u a b Hr Ha Hab Hb.
  - assert (E : a == b) by (change (inject_Z (Z.of_nat 0)) with 0 in Hb; lra).
    rewrite E. apply Qle_refl.
  - cbn [rising_from] in Hr. apply andb_true_iff in Hr. destruct Hr as [H1 Hn].
    assert (Eu : inject_Z (u + 1) == inject_Z u + 1)
      by (rewrite inject_Z_plus; reflexivity).
    assert (En : inject_Z (Z.of_nat (S n)) == inject_Z (Z.of_nat n) + 1)
      by (rewrite Nat2Z.inj_succ; unfold Z.succ; rewrite inject_Z_plus;
          reflexivity).
    destruct (Qlt_le_dec b (inject_Z u + 1)) as [Hb1|Hb1].
    + apply (rising_on_sound (inject_Z u) 1); try assumption. lra.
    + destruct (Qlt_le_dec a (inject_Z u + 1)) as [Ha1|Ha1].
      * apply Qle_trans with (polynomial (inject_Z u + 1)).
        -- apply (rising_on_sound (inject_Z u) 1); try assumption; lra.
        -- apply (IH (u + 1)%Z); try assumption; lra.
      * apply (IH (u + 1)%Z); try assumption; lra.
Qed.

(** In exact arithmetic the assumption of the search holds on the lower
    part of the bracket: the area is non-decreasing in the elevation from
    4304 up to 4403, just below the peak of the quartic. *)
Lemma area_rises_up_to_4403 (a b : Q) :
  4304 <= a -> a <= b -> b <= 4403 ->
  calculatePolynomialArea a <= calculatePolynomialArea b.
Proof.
  intros Ha Hab Hb. unfold calculatePolynomialArea.
  apply Q.max_le_compat_l.
  assert (Hr : rising_from 4304 99 = true) by by_computation.
  apply (rising_from_sound 99 4304 a b Hr Ha Hab).
  change (inject_Z 4304 + inject_Z (Z.of_nat 99)) with (4304 + 99). lra.
Qed.

(** * Part VIII: the colour ramp *)

(** For a flat grid ([height = 0] and [max = 0]) the quotient is [NaN]
    and so are the three components. *)
Lemma getColorByHeight_zero_over_zero :
  getColorByHeight (Fin 0) (Fin 0) = (NaN, NaN, NaN)
  /\ ~ in_unit_cube (getColorByHeight (Fin 0) (Fin 0)).
Proof.
  split; [reflexivity|].
  intros (r & g & b & E & _). discriminate E.
Qed.

Lemma getColorByHeight_ramp (height max : number) (t : Q) :
  Math_min (Math_max (js_div height max) (Fin 0)) (Fin 1) = Fin t ->
  getColorByHeight height max = fin_color (ramp t).
Proof.
  intro Ht. unfold getColorByHeight. rewrite Ht.
  unfold ramp. cbn [js_lt].
  destruct (Qltb t 0.1); [reflexivity|].
  destruct (Qltb t 0.5); reflexivity.
Qed.

Lemma clamp_finite (x : Q) :
  exists t : Q,
    Math_min (Math_max (Fin x) (Fin 0)) (Fin 1) = Fin t
    /\ unit_interval t /\ t == Qmin (Qmax x 0) 1.
Proof.
  unfold Math_max, Math_min, unit_interval. cbn [js_lt].
  destruct (Qltb x 0) eqn:E0.
  - apply Qltb_lt in E0. exists 0.
    split; [reflexivity|]. split; [split; discriminate|].
    rewrite Q.max_r by lra. rewrite Q.min_l by lra. reflexivity.
  - apply Qltb_ge in E0. cbn [js_lt].
    destruct (Qltb 1 x) eqn:E1.
    + apply Qltb_lt in E1. exists 1.
      split; [reflexivity|]. split; [split; discriminate|].
      rewrite Q.max_l by lra. rewrite Q.min_r by lra. reflexivity.
    + apply Qltb_ge in E1. exists x.
      split; [reflexivity|]. split; [split; assumption|].
      rewrite Q.max_l by lra. rewrite Q.min_l by lra. reflexivity.
Qed.

(** With a zero [max] and a non-zero [height] the quotient is an
    infinity, which the clamp brings back to 0 or 1. *)
Lemma normalized_height (h m : Q) :
  ~ (h == 0 /\ m == 0) ->
  exists t : Q,
    Math_min (Math_max (js_div (Fin h) (Fin m)) (Fin 0)) (Fin 1) = Fin t
    /\ unit_interval t
    /\ (~ m == 0 -> t == Qmin (Qmax (h / m) 0) 1).
Proof.
  intro Hnz. cbn [js_div].
  destruct (Qeq_bool m 0) eqn:Em.
  - apply Qeq_bool_iff in Em.
    destruct (h ?= 0) eqn:Eh.
    + exfalso. apply Hnz. split; [now apply Qeq_alt|exact Em].
    + exists 0. split; [reflexivity|]. split; [split; discriminate|].
      intro H. contradiction.
    + exists 1. split; [reflexivity|]. split; [split; discriminate|].
      intro H. contradiction.
  - destruct (clamp_finite (h / m)) as (t & E & Hu & Ht).
    exists t. split; [exact E|]. split; [exact Hu|]. intros _. exact Ht.
Qed.

Lemma mix_between (a b u : Q) :
  0 <= a -> a <= 1 -> 0 <= b -> b <= 1 -> 0 <= u -> u <= 1 ->
  unit_interval (mix a b u).
Proof. unfold unit_interval, mix. intros. split; nra. Qed.

Lemma ramp_in_unit_interval (t : Q) :
  unit_interval t ->
  unit_interval (fst (fst (ramp t)))
  /\ unit_interval (snd (fst (ramp t)))
  /\ unit_interval (snd (ramp t)).
Proof.
  intros [H0 H1]. unfold ramp.
  destruct (Qltb t 0.1) eqn:E1; [|destruct (Qltb t 0.5) eqn:E2].
  - apply Qltb_lt in E1.
    assert (Hu : 0 <= t / 0.1 /\ t / 0.1 <= 1).
    { setoid_replace (t / 0.1) with (t * 10) by field. lra. }
    destruct Hu. cbn [fst snd].
    repeat split; apply mix_between; try assumption; discriminate.
  - apply Qltb_ge in E1. apply Qltb_lt in E2.
    assert (Hu : 0 <= (t - 0.1) / 0.4 /\ (t - 0.1) / 0.4 <= 1).
    { setoid_replace ((t - 0.1) / 0.4) with ((t - 0.1) * (5 # 2)) by field.
      lra. }
    destruct Hu. cbn [fst snd].
    repeat split; apply mix_between; try assumption; discriminate.
  - apply Qltb_ge in E2.
    assert (Hu : 0 <= (t - 0.5) / 0.5 /\ (t - 0.5) / 0.5 <= 1).
    { setoid_replace ((t - 0.5) / 0.5) with ((t - 0.5) * 2) by field. lra. }
    destruct Hu. cbn [fst snd].
    repeat split; apply mix_between; try assumption; discriminate.
Qed.

(** Away from [0 / 0] the ramp is the one of the spec: for every finite
    height and every finite maxHeight that are not both zero,
    [getColorByHeight] returns a triple whose components lie in [[0, 1]],
    the three-band ramp over the sand, grass, rock and snow anchors at a
    normalised height [t] of [[0, 1]], which is
    [clamp (height / maxHeight, 0, 1)] whenever maxHeight is not zero. *)
Lemma getColorByHeight_in_unit_cube (h m : Q) :
  ~ (h == 0 /\ m == 0) ->
  exists t : Q,
    unit_interval t
    /\ (~ m == 0 -> t == Qmin (Qmax (h / m) 0) 1)
    /\ getColorByHeight (Fin h) (Fin m) = fin_color (ramp t)
    /\ in_unit_cube (getColorByHeight (Fin h) (Fin m)).
Proof.
  intro Hnz.
  destruct (normalized_height h m Hnz) as (t & E & Hu & Ht).
  exists t. split; [exact Hu|]. split; [exact Ht|].
  pose proof (getColorByHeight_ramp (Fin h) (Fin m) t E) as Er.
  split; [exact Er|].
  rewrite Er.
  exists (fst (fst (ramp t))), (snd (fst (ramp t))), (snd (ramp t)).
  split; [reflexivity|].
  apply ramp_in_unit_interval. exact Hu.
Qed.

Lemma getColorByHeight_in_unit_cube_witness :
  ~ (2 == 0 /\ 5 == 0)
  /\ in_unit_cube (getColorByHeight (Fin 2) (Fin 5)).
Proof.
  assert (H : ~ (2 == 0 /\ 5 == 0)) by (intros [H _]; discriminate H).
  split; [exact H|].
  destruct (getColorByHeight_in_unit_cube 2 5 H) as (t & _ & _ & _ & Hc).
  exact Hc.
Defined.

(** C9 fails on the code when [max] is zero and so is [height].  The
    clamp [Math.min (Math.max (_, 0), 1)] takes care of a non-zero height
    divided by zero: a positive height over 0 is [+Infinity], clamped to
    1, and the colour is the snow anchor; a negative height over 0 is
    [-Infinity], clamped to 0, and the colour is the sand anchor.  The case
    left over is missed: [0 / 0] is [NaN], which passes through the clamp
    and through both band tests, and the three components are [NaN],
    outside [[0, 1]]. *)
Theorem getColorByHeight_division_by_zero (h : Q) :
  (0 < h ->
   getColorByHeight (Fin h) (Fin 0) = fin_color (ramp 1)
   /\ in_unit_cube (getColorByHeight (Fin h) (Fin 0)))
  /\ (h < 0 ->
      getColorByHeight (Fin h) (Fin 0) = fin_color (ramp 0)
      /\ in_unit_cube (getColorByHeight (Fin h) (Fin 0)))
  /\ getColorByHeight (Fin 0) (Fin 0) = (NaN, NaN, NaN)
  /\ ~ in_unit_cube (getColorByHeight (Fin 0) (Fin 0))
  /\ (fst (fst (ramp 1)) == 0.95 /\ snd (fst (ramp 1)) == 0.95
      /\ snd (ramp 1) == 1)
  /\ (fst (fst (ramp 0)) == 0.82 /\ snd (fst (ramp 0)) == 0.78
      /\ snd (ramp 0) == 0.55).
Proof.
  assert (Hcube : forall (height : number) (t : Q),
            unit_interval t ->
            getColorByHeight height (Fin 0) = fin_color (ramp t) ->
            in_unit_cube (getColorByHeight height (Fin 0))).
  { intros height t Hu E. rewrite E.
    exists (fst (fst (ramp t))), (snd (fst (ramp t))), (snd (ramp t)).
    split; [reflexivity|]. apply ramp_in_unit_interval. exact Hu. }
  split; [|split; [|split; [|split; [|split]]]].
  - intro Hh.
    assert (E : getColorByHeight (Fin h) (Fin 0) = fin_color (ramp 1)).
    { apply getColorByHeight_ramp. cbn [js_div].
      change (Qeq_bool 0 0) with true. cbv iota.
      assert (Eh : (h ?= 0) = Gt) by (apply Qgt_alt; exact Hh).
      rewrite Eh. reflexivity. }
    split; [exact E|].
    apply (Hcube _ 1); [split; discriminate|exact E].
  - intro Hh.
    assert (E : getColorByHeight (Fin h) (Fin 0) = fin_color (ramp 0)).
    { apply getColorByHeight_ramp. cbn [js_div].
      change (Qeq_bool 0 0) with true. cbv iota.
      assert (Eh : (h ?= 0) = Lt) by (apply Qlt_alt; exact Hh).
      rewrite Eh. reflexivity. }
    split; [exact E|].
    apply (Hcube _ 0); [split; discriminate|exact E].
  - reflexivity.
  - intros (r & g & b & E & _). discriminate E.
  - each_by_computation.
  - each_by_computation.
Qed.

Lemma getColorByHeight_division_by_zero_witness :
  0 < 3
  /\ getColorByHeight (Fin 3) (Fin 0) = fin_color (ramp 1)
  /\ getColorByHeight (Fin 0) (Fin 0) = (NaN, NaN, NaN).
Proof.
  assert (H : 0 < 3) by reflexivity.
  split; [exact H|].
  destruct (getColorByHeight_division_by_zero 3) as (Hpos & _ & Hnan & _).
  split; [exact (proj1 (Hpos H))|exact Hnan].
Defined.

(** The two anchors the spec singles out: sand at height 0 and snow at
    the top, for a positive maximum. *)
Lemma getColorByHeight_anchors :
  getColorByHeight (Fin 0) (Fin 40)
  = fin_color (mix 0.82 0.25 (0 / 40 / 0.1), mix 0.78 0.55 (0 / 40 / 0.1),
               mix 0.55 0.2 (0 / 40 / 0.1))
  /\ mix 0.82 0.25 (0 / 40 / 0.1) == 0.82
  /\ getColorByHeight (Fin 40) (Fin 40)
     = fin_color (ramp (40 / 40))
  /\ fst (fst (ramp (40 / 40))) == 0.95 /\ snd (ramp (40 / 40)) == 1.
Proof. each_by_computation. Qed.

(** * Part IX: the raster ingestion *)

(** Membership in a list extended by one element. *)
Ltac in_snoc H :=
  apply in_app_or in H; destruct H as [H|[H|[]]].

Lemma typed_set_app (pre rest : list number) (old v : number) :
  typed_set (pre ++ old :: rest) (length pre) v = pre ++ v :: rest.
Proof.
  induction pre as [|p pre IH]; simpl; [reflexivity|]. now rewrite IH.
Qed.

Lemma zseq_length (n : nat) : forall from, length (zseq from n) = n.
Proof.
  induction n as [|n IH]; intro from; simpl; [reflexivity|]. now rewrite IH.
Qed.

Lemma cell_body_eq rawData origWidth origHeight scale newWidth y x s :
  cell_body rawData origWidth origHeight scale newWidth y x s =
  let val := sampleAt rawData origWidth origHeight scale y x in
  {| minVal := fst (observe val (minVal s, maxVal s));
     maxVal := snd (observe val (minVal s, maxVal s));
     newData := typed_set (newData s) (Z.to_nat (y * newWidth + x))
                  (mark val) |}.
Proof.
  unfold cell_body, observe, mark. cbv zeta.
  destruct (noData (sampleAt rawData origWidth origHeight scale y x));
    reflexivity.
Qed.

(** The two nested loops of the first pass fill the grid from left to
    right and from top to bottom: each round writes the first cell not
    yet written. *)
Section FirstPass.
Variable rawData : list number.
Variables origWidth origHeight newWidth : Z.
Variable scale : Q.
Hypothesis newWidth_nonneg : (0 <= newWidth)%Z.

Let body := cell_body rawData origWidth origHeight scale newWidth.
Let value := sampleAt rawData origWidth origHeight scale.

Lemma inner_loop (y : Z) (n : nat) :
  forall (x0 : Z) (s : pass_state) (pre rest : list number),
  (0 <= y)%Z -> (0 <= x0)%Z ->
  newData s = pre ++ rest ->
  length pre = Z.to_nat (y * newWidth + x0) ->
  (n <= length rest)%nat ->
  for_loop n x0 (body y) s =
  {| minVal := fst (folded (map (value y) (zseq x0 n)) s);
     maxVal := snd (folded (map (value y) (zseq x0 n)) s);
     newData := pre ++ map mark (map (value y) (zseq x0 n))
                    ++ skipn n rest |}.
Proof.
  induction n as [|n IH]; intros x0 s pre rest Hy Hx Hs Hlen Hn.
  - destruct s as [mn mx nd]. simpl in *. now subst nd.
  - destruct rest as [|old rest]; [simpl in Hn; lia|].
    cbn [for_loop zseq map]. unfold body at 2. rewrite cell_body_eq.
    cbv zeta. fold (value y x0).
    rewrite (IH (x0 + 1)%Z _ (pre ++ [mark (value y x0)]) rest); try lia.
    + unfold folded. cbn [minVal maxVal newData fold_left skipn].
      rewrite <- surjective_pairing. rewrite <- app_assoc. reflexivity.
    + cbn [newData]. rewrite Hs, <- Hlen, typed_set_app.
      rewrite <- app_assoc. reflexivity.
    + rewrite length_app. cbn [length]. rewrite Hlen.
      assert (0 <= y * newWidth)%Z
        by (apply Z.mul_nonneg_nonneg; assumption).
      lia.
    + simpl in Hn. lia.
Qed.

Lemma outer_loop (w : nat) (n : nat) :
  forall (y0 : Z) (s : pass_state) (pre rest : list number),
  w = Z.to_nat newWidth ->
  (0 <= y0)%Z ->
  newData s = pre ++ rest ->
  length pre = Z.to_nat (y0 * newWidth) ->
  (n * w <= length rest)%nat ->
  for_loop n y0 (fun y => for_loop w 0 (body y)) s =
  {| minVal :=
       fst (folded (rows rawData origWidth origHeight scale y0 n w) s);
     maxVal :=
       snd (folded (rows rawData origWidth origHeight scale y0 n w) s);
     newData :=
       pre ++ map mark (rows rawData origWidth origHeight scale y0 n w)
           ++ skipn (n * w) rest |}.
Proof.
  induction n as [|n IH]; intros y0 s pre rest Hw Hy Hs Hlen Hn.
  - destruct s as [mn mx nd]. simpl in *. now subst nd.
  - cbn [for_loop].
    rewrite (inner_loop y0 w 0 s pre rest); try lia; try assumption.
    rewrite (IH (y0 + 1)%Z _ (pre ++ map mark (map (value y0) (zseq 0 w)))
               (skipn w rest)); try lia.
    + unfold rows, folded. cbn [zseq flat_map minVal maxVal newData].
      rewrite <- surjective_pairing.
      rewrite fold_left_app, map_app, <- !app_assoc.
      rewrite skipn_skipn.
      replace (S n * w)%nat with (n * w + w)%nat by lia. reflexivity.
    + cbn [newData]. rewrite <- app_assoc. reflexivity.
    + rewrite length_app, !length_map, zseq_length, Hlen. lia.
    + rewrite length_skipn. simpl in Hn. lia.
Qed.
End FirstPass.

Lemma rows_length rawData origWidth origHeight scale (n w : nat) :
  forall y0,
  length (rows rawData origWidth origHeight scale y0 n w) = (n * w)%nat.
Proof.
  unfold rows. induction n as [|n IH]; intro y0; cbn [zseq flat_map].
  - reflexivity.
  - rewrite length_app, length_map, zseq_length, IH. reflexivity.
Qed.

Lemma demScale_pos ow oh t : 0 < demScale ow oh t.
Proof.
  unfold demScale. cbv zeta.
  destruct (Z.pos t <? Z.max (Z.of_N ow) (Z.of_N oh))%Z eqn:E.
  - apply Z.ltb_lt in E.
    apply Qlt_shift_div_l.
    + reflexivity.
    + rewrite Qmult_0_l. rewrite <- (Zlt_Qlt 0). lia.
  - reflexivity.
Qed.

Lemma floor_quotient_nonneg (n : N) (s : Q) :
  0 < s -> (0 <= Qfloor (inject_Z (Z.of_N n) / s))%Z.
Proof.
  intro Hs. change 0%Z with (Qfloor 0).
  apply Qfloor_resp_le.
  apply Qle_shift_div_l; [exact Hs|].
  rewrite Qmult_0_l. rewrite <- (Zle_Qle 0). lia.
Qed.

Lemma demWidth_nonneg ow oh t : (0 <= demWidth ow oh t)%Z.
Proof. apply floor_quotient_nonneg, demScale_pos. Qed.

Lemma demHeight_nonneg ow oh t : (0 <= demHeight ow oh t)%Z.
Proof. apply floor_quotient_nonneg, demScale_pos. Qed.

Lemma sampled_length rawData ow oh t :
  length (sampled rawData ow oh t)
  = Z.to_nat (demWidth ow oh t * demHeight ow oh t).
Proof.
  unfold sampled. rewrite rows_length.
  rewrite Z2Nat.inj_mul by (apply demWidth_nonneg || apply demHeight_nonneg).
  lia.
Qed.

Lemma normalize_mark (mn v : number) :
  normalize mn (mark v) = shift_or_fill mn v.
Proof.
  unfold normalize, mark, shift_or_fill.
  destruct (noData v) eqn:E; [reflexivity|].
  destruct v; try reflexivity. discriminate E.
Qed.

(** The whole function in closed form: one scan for the extrema, the
    fallback, and one map over the sampled values. *)
Lemma processRawDemData_eq rawData ow oh t :
  processRawDemData rawData ow oh t =
  let mm := fallback (fold_left (fun acc v => observe v acc)
                        (sampled rawData ow oh t) (PInf, NInf)) in
  {| data := map (shift_or_fill (fst mm)) (sampled rawData ow oh t);
     width := demWidth ow oh t;
     height := demHeight ow oh t;
     minHeight := fst mm;
     maxHeight := js_sub (snd mm) (fst mm) |}.
Proof.
  unfold processRawDemData. cbv zeta.
  fold (demScale ow oh t). fold (demWidth ow oh t). fold (demHeight ow oh t).
  pose proof (demWidth_nonneg ow oh t) as HW.
  pose proof (demHeight_nonneg ow oh t) as HH.
  set (W := demWidth ow oh t) in *. set (H := demHeight ow oh t) in *.
  rewrite (outer_loop rawData (Z.of_N ow) (Z.of_N oh) W (demScale ow oh t) HW
             (Z.to_nat W) (Z.to_nat H) 0 _ []
             (repeat (Fin 0) (Z.to_nat (W * H))));
    try reflexivity; try lia.
  2: { rewrite repeat_length, Z2Nat.inj_mul by assumption. lia. }
  cbn [minVal maxVal newData app].
  rewrite skipn_all2.
  2: { rewrite repeat_length, Z2Nat.inj_mul by assumption. lia. }
  rewrite app_nil_r.
  unfold folded. cbn [minVal maxVal].
  change (rows rawData (Z.of_N ow) (Z.of_N oh) (demScale ow oh t) 0
            (Z.to_nat H) (Z.to_nat W))
    with (sampled rawData ow oh t).
  set (mm := fold_left _ (sampled rawData ow oh t) (PInf, NInf)).
  unfold fallback.
  destruct (fst mm) eqn:E; cbn [fst snd]; rewrite map_map;
    try rewrite <- E; rewrite <- ?surjective_pairing;
    f_equal; apply map_ext; intro v; apply normalize_mark.
Qed.

Lemma valid_finite (v : number) :
  noData v = false -> exists q : Q, v = Fin q.
Proof.
  destruct v as [| | |q]; try discriminate. intros _. now exists q.
Qed.

Lemma observe_tracks (seen : list number) (mm : number * number) (v : number) :
  min_tracked seen mm -> min_tracked (seen ++ [v]) (observe v mm).
Proof.
  intro Inv. unfold observe.
  destruct (noData v) eqn:Ev.
  - destruct Inv as [[E Hall]|(m & E & Hin & Hv & Hmin)].
    + left. split; [exact E|]. intros u Hu.
      in_snoc Hu; [auto|now subst].
    + right. exists m. split; [exact E|]. split; [apply in_or_app; now left|].
      split; [exact Hv|]. intros q Hq Hvq.
      in_snoc Hq; [auto|]. subst v. congruence.
  - right. destruct (valid_finite v Ev) as [q0 ->].
    destruct Inv as [[E Hall]|(m & E & Hin & Hv & Hmin)].
    + subst mm. cbn [fst snd js_lt]. exists q0.
      split; [reflexivity|]. split; [apply in_or_app; right; now left|].
      split; [exact Ev|]. intros q Hq Hvq.
      in_snoc Hq.
      * rewrite (Hall _ Hq) in Hvq. discriminate.
      * injection Hq as ->. apply Qle_refl.
    + rewrite E. cbn [fst js_lt].
      destruct (Qltb q0 m) eqn:Elt.
      * apply Qltb_lt in Elt. exists q0.
        split; [reflexivity|]. split; [apply in_or_app; right; now left|].
        split; [exact Ev|]. intros q Hq Hvq.
        in_snoc Hq.
        -- specialize (Hmin q Hq Hvq). lra.
        -- injection Hq as ->. apply Qle_refl.
      * apply Qltb_ge in Elt. exists m.
        split; [reflexivity|]. split; [apply in_or_app; now left|].
        split; [exact Hv|]. intros q Hq Hvq.
        in_snoc Hq.
        -- auto.
        -- injection Hq as ->. exact Elt.
Qed.

Lemma fold_tracks (vals : list number) :
  forall seen mm,
  min_tracked seen mm ->
  min_tracked (seen ++ vals) (fold_left (fun acc v => observe v acc) vals mm).
Proof.
  induction vals as [|v vals IH]; intros seen mm Inv.
  - rewrite app_nil_r. exact Inv.
  - cbn [fold_left].
    replace (seen ++ v :: vals) with ((seen ++ [v]) ++ vals)
      by (rewrite <- app_assoc; reflexivity).
    apply IH, observe_tracks, Inv.
Qed.

(** After the scan [minVal] is still [Infinity] exactly when no sample
    was valid; otherwise it is the least valid sample. *)
Lemma running_minimum (vals : list number) :
  min_tracked vals (fold_left (fun acc v => observe v acc) vals (PInf, NInf)).
Proof.
  apply (fold_tracks vals [] (PInf, NInf)).
  left. split; [reflexivity|]. intros v [].
Qed.

(** C5.  For every raster whose output grid is not empty, every no-data
    cell of the grid is filled with 0 and every valid cell is its sample
    less [minHeight], which is the least valid sample; hence every height
    of the grid is at least 0 and one of them is 0. *)
Theorem normalized_grid_minimum_zero
  rawData origWidth origHeight targetMaxSize :
  data (processRawDemData rawData origWidth origHeight targetMaxSize) <> [] ->
  data (processRawDemData rawData origWidth origHeight targetMaxSize)
  = map (shift_or_fill
           (minHeight
              (processRawDemData rawData origWidth origHeight targetMaxSize)))
        (sampled rawData origWidth origHeight targetMaxSize)
  /\ (forall q : Q,
        In (Fin q) (sampled rawData origWidth origHeight targetMaxSize) ->
        noData (Fin q) = false ->
        exists m : Q,
          minHeight
            (processRawDemData rawData origWidth origHeight targetMaxSize)
          = Fin m
          /\ In (Fin m) (sampled rawData origWidth origHeight targetMaxSize)
          /\ noData (Fin m) = false
          /\ m <= q)
  /\ Forall nonneg_height
       (data (processRawDemData rawData origWidth origHeight targetMaxSize))
  /\ Exists zero_height
       (data (processRawDemData rawData origWidth origHeight targetMaxSize)).
Proof.
  intro Hne. rewrite processRawDemData_eq in *. cbv zeta in *.
  cbn [data minHeight] in *.
  set (vals := sampled rawData origWidth origHeight targetMaxSize) in *.
  pose proof (running_minimum vals) as Inv.
  set (mm := fold_left _ vals (PInf, NInf)) in *.
  split; [reflexivity|].
  destruct Inv as [[E Hall]|(m & E & Hin & Hv & Hmin)].
  - rewrite E in *. cbn [fallback fst] in *.
    assert (Hfill : forall v, In v vals -> shift_or_fill (Fin 0) v = Fin 0).
    { intros v Hv. unfold shift_or_fill. now rewrite (Hall v Hv). }
    split; [|split].
    + intros q Hq Hvq. rewrite (Hall _ Hq) in Hvq. discriminate.
    + apply Forall_forall. intros u Hu. apply in_map_iff in Hu.
      destruct Hu as (v & <- & Hv). rewrite (Hfill v Hv).
      exists 0. split; [reflexivity|apply Qle_refl].
    + destruct vals as [|v vals']; [now contradiction Hne|].
      apply Exists_cons_hd. cbn [map]. rewrite (Hfill v) by now left.
      exists 0. split; reflexivity.
  - assert (Ef : fst (fallback mm) = Fin m).
    { unfold fallback. rewrite E. exact E. }
    rewrite Ef in *.
    split; [|split].
    + intros q Hq Hvq. exists m. auto.
    + apply Forall_forall. intros u Hu. apply in_map_iff in Hu.
      destruct Hu as (v & <- & Hvin). unfold shift_or_fill.
      destruct (noData v) eqn:Ev.
      * exists 0. split; [reflexivity|apply Qle_refl].
      * destruct (valid_finite v Ev) as [q ->].
        specialize (Hmin q Hvin Ev).
        exists (q + - m). split; [reflexivity|lra].
    + apply Exists_exists. exists (shift_or_fill (Fin m) (Fin m)).
      split; [apply in_map; exact Hin|].
      unfold shift_or_fill. rewrite Hv.
      exists (m + - m). split; [reflexivity|ring].
Qed.

Lemma normalized_grid_minimum_zero_witness :
  data (processRawDemData [Fin 5; Fin 3; NaN; Fin 20000; Fin 7; Fin 4] 3 2 256)
  <> []
  /\ Forall nonneg_height
       (data (processRawDemData
                [Fin 5; Fin 3; NaN; Fin 20000; Fin 7; Fin 4] 3 2 256))
  /\ Exists zero_height
       (data (processRawDemData
                [Fin 5; Fin 3; NaN; Fin 20000; Fin 7; Fin 4] 3 2 256)).
Proof.
  assert (H : data (processRawDemData
                      [Fin 5; Fin 3; NaN; Fin 20000; Fin 7; Fin 4] 3 2 256)
              <> []) by (vm_compute; discriminate).
  split; [exact H|].
  exact (proj2 (proj2
           (normalized_grid_minimum_zero
              [Fin 5; Fin 3; NaN; Fin 20000; Fin 7; Fin 4] 3 2 256 H))).
Defined.

Lemma typed_get_noData (rawData : list number) (i : Z) :
  all_noData rawData -> noData (typed_get rawData i) = true.
Proof.
  intro Hall. unfold typed_get.
  destruct (i <? 0)%Z; [reflexivity|].
  destruct (nth_in_or_default (Z.to_nat i) rawData NaN) as [Hin | ->];
    [|reflexivity].
  unfold all_noData in Hall. rewrite Forall_forall in Hall. now apply Hall.
Qed.

Lemma sampled_noData rawData ow oh t (v : number) :
  all_noData rawData -> In v (sampled rawData ow oh t) -> noData v = true.
Proof.
  intros Hall Hin. unfold sampled, rows in Hin.
  apply in_flat_map in Hin. destruct Hin as (y & _ & Hin).
  apply in_map_iff in Hin. destruct Hin as (x & <- & _).
  unfold sampleAt. cbv zeta. now apply typed_get_noData.
Qed.

Lemma fold_noData (vals : list number) (mm : number * number) :
  (forall v, In v vals -> noData v = true) ->
  fold_left (fun acc v => observe v acc) vals mm = mm.
Proof.
  revert mm. induction vals as [|v vals IH]; intros mm Hall; [reflexivity|].
  cbn [fold_left]. unfold observe at 2.
  rewrite (Hall v) by now left.
  apply IH. intros u Hu. apply Hall. now right.
Qed.

(** C6.  For every raster made of no-data values only ([NaN] or outside
    [[-12000, 12000]]) the ingestion returns a grid of the computed
    dimensions whose heights are all 0, with [minHeight = 0] and
    [maxHeight = 10]. *)
Theorem all_noData_fallback rawData origWidth origHeight targetMaxSize :
  all_noData rawData ->
  Forall (fun v => v = Fin 0)
    (data (processRawDemData rawData origWidth origHeight targetMaxSize))
  /\ length
       (data (processRawDemData rawData origWidth origHeight targetMaxSize))
     = Z.to_nat
         (width (processRawDemData rawData origWidth origHeight targetMaxSize)
          * height
              (processRawDemData rawData origWidth origHeight targetMaxSize))
  /\ minHeight (processRawDemData rawData origWidth origHeight targetMaxSize)
     = Fin 0
  /\ maxHeight (processRawDemData rawData origWidth origHeight targetMaxSize)
     = Fin 10.
Proof.
  intro Hall. rewrite processRawDemData_eq. cbv zeta.
  cbn [data width height minHeight maxHeight].
  rewrite (fold_noData (sampled rawData origWidth origHeight targetMaxSize))
    by (intros v Hv; eapply sampled_noData; eassumption).
  cbn [fallback fst snd].
  split; [|split; [|split; reflexivity]].
  - apply Forall_forall. intros u Hu. apply in_map_iff in Hu.
    destruct Hu as (v & <- & Hv). unfold shift_or_fill.
    now rewrite (sampled_noData _ _ _ _ v Hall Hv).
  - rewrite length_map. apply sampled_length.
Qed.

Lemma all_noData_fallback_witness :
  all_noData [NaN; PInf; Fin 20000; Fin (-12001)]
  /\ data (processRawDemData [NaN; PInf; Fin 20000; Fin (-12001)] 2 2 256)
     = [Fin 0; Fin 0; Fin 0; Fin 0]
  /\ minHeight (processRawDemData [NaN; PInf; Fin 20000; Fin (-12001)] 2 2 256)
     = Fin 0
  /\ maxHeight (processRawDemData [NaN; PInf; Fin 20000; Fin (-12001)] 2 2 256)
     = Fin 10.
Proof.
  assert (H : all_noData [NaN; PInf; Fin 20000; Fin (-12001)])
    by (repeat constructor).
  split; [exact H|].
  split; [reflexivity|].
  exact (proj2 (proj2
           (all_noData_fallback
              [NaN; PInf; Fin 20000; Fin (-12001)] 2 2 256 H))).
Defined.

(** * Part X: the shape of the output grid *)

Lemma inject_Z_nonzero (z : Z) : z <> 0%Z -> ~ inject_Z z == 0.
Proof. intros Hz E. unfold Qeq in E. cbn in E. lia. Qed.

Lemma Qfloor_div_Z (a b : Z) :
  (0 < b)%Z -> Qfloor (inject_Z a / inject_Z b) = (a / b)%Z.
Proof.
  intro Hb. destruct b as [|p|p]; try lia.
  unfold Qdiv, Qinv, inject_Z, Qmult, Qfloor. cbn [Qnum Qden].
  rewrite Z.mul_1_r, Pos.mul_1_l. reflexivity.
Qed.

Lemma demScale_ge_1 ow oh t : 1 <= demScale ow oh t.
Proof.
  unfold demScale. cbv zeta.
  destruct (Z.pos t <? Z.max (Z.of_N ow) (Z.of_N oh))%Z eqn:E.
  - apply Z.ltb_lt in E.
    apply Qle_shift_div_l; [reflexivity|].
    rewrite Qmult_1_l. rewrite <- Zle_Qle. lia.
  - apply Qle_refl.
Qed.

Lemma demScale_small ow oh t :
  (Z.max (Z.of_N ow) (Z.of_N oh) <= Z.pos t)%Z -> demScale ow oh t = 1.
Proof.
  intro H. unfold demScale. cbv zeta.
  destruct (Z.pos t <? Z.max (Z.of_N ow) (Z.of_N oh))%Z eqn:E;
    [apply Z.ltb_lt in E; lia|reflexivity].
Qed.

Lemma demScale_large ow oh t :
  (Z.pos t < Z.max (Z.of_N ow) (Z.of_N oh))%Z ->
  demScale ow oh t
  = inject_Z (Z.max (Z.of_N ow) (Z.of_N oh)) / inject_Z (Z.pos t).
Proof.
  intro H. unfold demScale. cbv zeta.
  destruct (Z.pos t <? Z.max (Z.of_N ow) (Z.of_N oh))%Z eqn:E;
    [reflexivity|apply Z.ltb_ge in E; lia].
Qed.

(** Output size along one axis of [n] cells. *)
Lemma floor_quotient_small (n : N) ow oh t :
  (Z.max (Z.of_N ow) (Z.of_N oh) <= Z.pos t)%Z ->
  Qfloor (inject_Z (Z.of_N n) / demScale ow oh t) = Z.of_N n.
Proof.
  intro H. rewrite (demScale_small ow oh t H).
  transitivity (Qfloor (inject_Z (Z.of_N n))); [|apply Qfloor_Z].
  apply Qfloor_comp. field.
Qed.

Lemma floor_quotient_large (n : N) ow oh t :
  (Z.pos t < Z.max (Z.of_N ow) (Z.of_N oh))%Z ->
  Qfloor (inject_Z (Z.of_N n) / demScale ow oh t)
  = (Z.of_N n * Z.pos t / Z.max (Z.of_N ow) (Z.of_N oh))%Z.
Proof.
  intro H. rewrite (demScale_large ow oh t H).
  set (m := Z.max (Z.of_N ow) (Z.of_N oh)) in *.
  rewrite <- Qfloor_div_Z by lia.
  apply Qfloor_comp. rewrite inject_Z_mult. field.
  split; apply inject_Z_nonzero; lia.
Qed.

Lemma width_eq rawData ow oh t :
  width (processRawDemData rawData ow oh t) = demWidth ow oh t.
Proof. rewrite processRawDemData_eq. reflexivity. Qed.

Lemma height_eq rawData ow oh t :
  height (processRawDemData rawData ow oh t) = demHeight ow oh t.
Proof. rewrite processRawDemData_eq. reflexivity. Qed.

Lemma data_length rawData ow oh t :
  length (data (processRawDemData rawData ow oh t))
  = Z.to_nat (demWidth ow oh t * demHeight ow oh t).
Proof.
  rewrite processRawDemData_eq. cbv zeta. cbn [data].
  rewrite length_map. apply sampled_length.
Qed.

(** X1.  Shape of the output grid: it holds [width * height] cells, and
    each side is at most the side of the raster and at most
    [targetMaxSize].  When [targetMaxSize] is a power of two (the caller
    passes 256, which is also the default) and the raster is larger, a
    side of [n] cells becomes [n * targetMaxSize / maxDim] cells (integer
    division) and the longer side becomes exactly [targetMaxSize].  The
    power of two and the bound [maxDim * targetMaxSize < 2 ^ 53] are what
    the program needs for its binary64 quotients to give these integers:
    the scale [maxDim / targetMaxSize] is then exact, and the rounding of
    [n / scale] is too small to reach the next integer.  With another
    [targetMaxSize] the floor of the rounded quotient can fall one short. *)
Theorem output_grid_shape rawData origWidth origHeight targetMaxSize :
  length (data (processRawDemData rawData origWidth origHeight targetMaxSize))
  = Z.to_nat
      (width (processRawDemData rawData origWidth origHeight targetMaxSize)
       * height (processRawDemData rawData origWidth origHeight targetMaxSize))
  /\ (0 <= width (processRawDemData rawData origWidth origHeight targetMaxSize)
       <= Z.min (Z.of_N origWidth) (Z.pos targetMaxSize))%Z
  /\ (0 <= height (processRawDemData rawData origWidth origHeight targetMaxSize)
       <= Z.min (Z.of_N origHeight) (Z.pos targetMaxSize))%Z
  /\ ((exists k : nat, Z.pos targetMaxSize = (2 ^ Z.of_nat k)%Z) ->
      (Z.max (Z.of_N origWidth) (Z.of_N origHeight) * Z.pos targetMaxSize
       < 2 ^ 53)%Z ->
      (Z.pos targetMaxSize < Z.max (Z.of_N origWidth) (Z.of_N origHeight))%Z ->
      width (processRawDemData rawData origWidth origHeight targetMaxSize)
      = (Z.of_N origWidth * Z.pos targetMaxSize
         / Z.max (Z.of_N origWidth) (Z.of_N origHeight))%Z
      /\ height (processRawDemData rawData origWidth origHeight targetMaxSize)
         = (Z.of_N origHeight * Z.pos targetMaxSize
            / Z.max (Z.of_N origWidth) (Z.of_N origHeight))%Z
      /\ Z.max
           (width (processRawDemData rawData origWidth origHeight targetMaxSize))
           (height (processRawDemData rawData origWidth origHeight targetMaxSize))
         = Z.pos targetMaxSize).
Proof.
  rewrite width_eq, height_eq, data_length.
  split; [reflexivity|].
  unfold demWidth, demHeight.
  destruct (Z_lt_le_dec (Z.pos targetMaxSize)
              (Z.max (Z.of_N origWidth) (Z.of_N origHeight))) as [Hbig|Hsmall].
  - rewrite !(floor_quotient_large _ _ _ _ Hbig).
    set (m := Z.max (Z.of_N origWidth) (Z.of_N origHeight)) in *.
    set (ow := Z.of_N origWidth) in *. set (oh := Z.of_N origHeight) in *.
    set (t := Z.pos targetMaxSize) in *.
    assert (Hm : (0 < m)%Z) by lia.
    assert (How : (0 <= ow <= m)%Z) by lia.
    assert (Hoh : (0 <= oh <= m)%Z) by lia.
    assert (Ht : (0 < t)%Z) by (unfold t; lia).
    assert (Hw0 : (0 <= ow * t / m)%Z) by (apply Z.div_pos; nia).
    assert (Hh0 : (0 <= oh * t / m)%Z) by (apply Z.div_pos; nia).
    assert (Hw : (ow * t / m <= t)%Z)
      by (apply Z.div_le_upper_bound; nia).
    assert (Hh : (oh * t / m <= t)%Z)
      by (apply Z.div_le_upper_bound; nia).
    assert (Hw' : (ow * t / m <= ow)%Z)
      by (apply Z.div_le_upper_bound; nia).
    assert (Hh' : (oh * t / m <= oh)%Z)
      by (apply Z.div_le_upper_bound; nia).
    split; [lia|]. split; [lia|].
    intros _ _ _. split; [reflexivity|]. split; [reflexivity|].
    assert (Hmax : (m * t / m = t)%Z)
      by (rewrite Z.mul_comm; apply Z.div_mul; lia).
    destruct (Z.max_spec ow oh) as [[Hlt E]|[Hlt E]]; fold m in E;
      clearbody m; subst m; lia.
  - rewrite !(floor_quotient_small _ _ _ _ Hsmall).
    split; [lia|]. split; [lia|]. intros _ _ Hc. lia.
Qed.

Lemma output_grid_shape_witness :
  (exists k : nat, 256%Z = (2 ^ Z.of_nat k)%Z)
  /\ (Z.max (Z.of_N 1000) (Z.of_N 500) * 256 < 2 ^ 53)%Z
  /\ (256 < Z.max (Z.of_N 1000) (Z.of_N 500))%Z
  /\ width (processRawDemData [] 1000 500 256) = 256%Z
  /\ height (processRawDemData [] 1000 500 256) = 128%Z.
Proof.
  assert (Hk : exists k : nat, 256%Z = (2 ^ Z.of_nat k)%Z)
    by (exists 8%nat; reflexivity).
  assert (Hb : (Z.max (Z.of_N 1000) (Z.of_N 500) * 256 < 2 ^ 53)%Z)
    by reflexivity.
  assert (H : (256 < Z.max (Z.of_N 1000) (Z.of_N 500))%Z) by reflexivity.
  split; [exact Hk|]. split; [exact Hb|]. split; [exact H|].
  destruct (output_grid_shape [] 1000 500 256) as (_ & _ & _ & Hd).
  destruct (Hd Hk Hb H) as (Hw & Hh & _).
  split; [exact Hw|exact Hh].
Defined.

(** ** Which raster element each cell holds *)

Lemma zseq_nth (n : nat) :
  forall (from : Z) (i : nat) (d : Z),
  (i < n)%nat -> nth i (zseq from n) d = (from + Z.of_nat i)%Z.
Proof.
  induction n as [|n IH]; intros from i d Hi; [lia|].
  destruct i as [|i]; cbn [zseq nth].
  - lia.
  - rewrite IH by lia. lia.
Qed.

Lemma in_zseq (n : nat) :
  forall (from i : Z),
  In i (zseq from n) -> (from <= i < from + Z.of_nat n)%Z.
Proof.
  induction n as [|n IH]; intros from i Hin; [destruct Hin|].
  cbn [zseq] in Hin. destruct Hin as [<-|Hin]; [lia|].
  apply IH in Hin. lia.
Qed.

Lemma map_zseq_nth (f : Z -> number) (n : nat) (from : Z) (i : nat) (d : number) :
  (i < n)%nat -> nth i (map f (zseq from n)) d = f (from + Z.of_nat i)%Z.
Proof.
  intro Hi.
  rewrite (nth_indep _ d (f 0%Z)) by (rewrite length_map, zseq_length; exact Hi).
  rewrite map_nth. f_equal. apply zseq_nth. exact Hi.
Qed.

(** Cell [(x, y)] of the sampled grid sits at index [y * w + x]. *)
Lemma rows_nth rawData origWidth origHeight scale (w n : nat) :
  forall (y0 : Z) (y x : nat) (d : number),
  (x < w)%nat -> (y < n)%nat ->
  nth (y * w + x) (rows rawData origWidth origHeight scale y0 n w) d
  = sampleAt rawData origWidth origHeight scale
      (y0 + Z.of_nat y) (Z.of_nat x).
Proof.
  unfold rows.
  induction n as [|n IH]; intros y0 y x d Hx Hy; [lia|].
  cbn [zseq flat_map].
  destruct y as [|y].
  - rewrite app_nth1 by (rewrite length_map, zseq_length; lia).
    cbn [Nat.mul Nat.add]. rewrite map_zseq_nth by exact Hx.
    f_equal; lia.
  - rewrite app_nth2 by (rewrite length_map, zseq_length; lia).
    rewrite length_map, zseq_length.
    replace (S y * w + x - w)%nat with (y * w + x)%nat by lia.
    rewrite IH by lia. f_equal; lia.
Qed.

(** Inside the output grid the nearest-neighbour coordinate stays inside
    the raster: the safety clamp never changes it. *)
Lemma source_coordinate_in_range (n : N) ow oh t (x : Z) :
  (0 <= x < Qfloor (inject_Z (Z.of_N n) / demScale ow oh t))%Z ->
  (0 <= Qfloor (inject_Z x * demScale ow oh t) <= Z.of_N n - 1)%Z.
Proof.
  intros [Hx0 Hx].
  pose proof (demScale_ge_1 ow oh t) as Hs.
  set (s := demScale ow oh t) in *.
  pose proof (Qfloor_le (inject_Z (Z.of_N n) / s)) as Hfl.
  set (W := Qfloor (inject_Z (Z.of_N n) / s)) in *.
  assert (Hq : inject_Z W * s <= inject_Z (Z.of_N n)).
  { apply (Qmult_le_compat_r _ _ s) in Hfl; [|lra].
    setoid_replace (inject_Z (Z.of_N n) / s * s) with (inject_Z (Z.of_N n))
      in Hfl by (field; lra).
    exact Hfl. }
  assert (Hx1 : inject_Z x <= inject_Z W - 1).
  { setoid_replace (inject_Z W - 1) with (inject_Z (W - 1))
      by (unfold Z.sub; rewrite inject_Z_plus; reflexivity).
    rewrite <- Zle_Qle. lia. }
  assert (Hx0' : 0 <= inject_Z x) by (rewrite <- (Zle_Qle 0); exact Hx0).
  split.
  - change 0%Z with (Qfloor 0). apply Qfloor_resp_le. nra.
  - rewrite <- (Qfloor_Z (Z.of_N n - 1)). apply Qfloor_resp_le.
    setoid_replace (inject_Z (Z.of_N n - 1)) with (inject_Z (Z.of_N n) - 1)
      by (unfold Z.sub; rewrite inject_Z_plus; reflexivity).
    nra.
Qed.

Lemma sampleAt_unclamped rawData ow oh t (y x : Z) :
  (0 <= y < demHeight ow oh t)%Z -> (0 <= x < demWidth ow oh t)%Z ->
  sampleAt rawData (Z.of_N ow) (Z.of_N oh) (demScale ow oh t) y x
  = typed_get rawData
      (Qfloor (inject_Z y * demScale ow oh t) * Z.of_N ow
       + Qfloor (inject_Z x * demScale ow oh t)).
Proof.
  intros Hy Hx. unfold sampleAt. cbv zeta.
  pose proof (source_coordinate_in_range ow ow oh t x Hx) as Hsx.
  pose proof (source_coordinate_in_range oh ow oh t y Hy) as Hsy.
  rewrite !Z.max_r by lia. rewrite !Z.min_l by lia. reflexivity.
Qed.

Lemma data_nth rawData ow oh t (y x : Z) :
  (0 <= y < demHeight ow oh t)%Z -> (0 <= x < demWidth ow oh t)%Z ->
  nth (Z.to_nat (y * demWidth ow oh t + x))
      (data (processRawDemData rawData ow oh t)) NaN
  = shift_or_fill (minHeight (processRawDemData rawData ow oh t))
      (sampleAt rawData (Z.of_N ow) (Z.of_N oh) (demScale ow oh t) y x).
Proof.
  intros Hy Hx. rewrite processRawDemData_eq. cbv zeta. cbn [data minHeight].
  set (mn := fst (fallback _)).
  assert (Hk : (Z.to_nat (y * demWidth ow oh t + x)
                < length (sampled rawData ow oh t))%nat).
  { rewrite sampled_length. nia. }
  rewrite (nth_indep _ NaN (shift_or_fill mn NaN))
    by (rewrite length_map; exact Hk).
  rewrite map_nth. f_equal.
  unfold sampled.
  replace (Z.to_nat (y * demWidth ow oh t + x))
    with (Z.to_nat y * Z.to_nat (demWidth ow oh t) + Z.to_nat x)%nat by nia.
  rewrite rows_nth by lia.
  f_equal; lia.
Qed.



(** X3.  A raster whose sides are both at most [targetMaxSize] is not
    downsampled: the grid has the sides of the raster and cell [(x, y)]
    is the raster element [y * origWidth + x], filled or shifted. *)
Theorem small_raster_kept_whole
  rawData origWidth origHeight targetMaxSize :
  (Z.max (Z.of_N origWidth) (Z.of_N origHeight) <= Z.pos targetMaxSize)%Z ->
  width (processRawDemData rawData origWidth origHeight targetMaxSize)
  = Z.of_N origWidth
  /\ height (processRawDemData rawData origWidth origHeight targetMaxSize)
     = Z.of_N origHeight
  /\ forall y x : Z,
       (0 <= y < Z.of_N origHeight)%Z -> (0 <= x < Z.of_N origWidth)%Z ->
       nth (Z.to_nat (y * Z.of_N origWidth + x))
           (data (processRawDemData rawData origWidth origHeight
                    targetMaxSize)) NaN
       = shift_or_fill
           (minHeight (processRawDemData rawData origWidth origHeight
                         targetMaxSize))
           (typed_get rawData (y * Z.of_N origWidth + x)).
Proof.
  intro Hsmall. rewrite width_eq, height_eq.
  assert (EW : demWidth origWidth origHeight targetMaxSize = Z.of_N origWidth)
    by (apply floor_quotient_small; exact Hsmall).
  assert (EH : demHeight origWidth origHeight targetMaxSize
               = Z.of_N origHeight)
    by (apply floor_quotient_small; exact Hsmall).
  split; [exact EW|]. split; [exact EH|].
  intros y x Hy Hx.
  rewrite <- EW at 1. rewrite data_nth by (rewrite ?EW, ?EH; assumption).
  rewrite sampleAt_unclamped by (rewrite ?EW, ?EH; assumption).
  rewrite (demScale_small _ _ _ Hsmall).
  f_equal. f_equal.
  assert (Hf : forall z, Qfloor (inject_Z z * 1) = z).
  { intro z. rewrite <- (Qfloor_Z z) at 2. apply Qfloor_comp. ring. }
  rewrite !Hf. reflexivity.
Qed.

Lemma small_raster_kept_whole_witness :
  (Z.max (Z.of_N 3) (Z.of_N 2) <= 256)%Z
  /\ width (processRawDemData [Fin 5; Fin 3; NaN; Fin 20000; Fin 7; Fin 4]
              3 2 256) = 3%Z.
Proof.
  assert (H : (Z.max (Z.of_N 3) (Z.of_N 2) <= 256)%Z) by (vm_compute; congruence).
  split; [exact H|].
  exact (proj1 (small_raster_kept_whole
                  [Fin 5; Fin 3; NaN; Fin 20000; Fin 7; Fin 4] 3 2 256 H)).
Defined.

(** ** The range of the heights *)

Lemma observe_tracks_max (seen : list number) (mm : number * number)
  (v : number) :
  max_tracked seen mm -> max_tracked (seen ++ [v]) (observe v mm).
Proof.
  intro Inv. unfold observe.
  destruct (noData v) eqn:Ev.
  - destruct Inv as [[E Hall]|(M & E & Hin & Hv & Hmax)].
    + left. split; [exact E|]. intros u Hu.
      in_snoc Hu; [auto|now subst].
    + right. exists M. split; [exact E|]. split; [apply in_or_app; now left|].
      split; [exact Hv|]. intros q Hq Hvq.
      in_snoc Hq; [auto|]. subst v. congruence.
  - right. destruct (valid_finite v Ev) as [q0 ->].
    destruct Inv as [[E Hall]|(M & E & Hin & Hv & Hmax)].
    + subst mm. cbn [fst snd js_gt js_lt]. exists q0.
      split; [reflexivity|]. split; [apply in_or_app; right; now left|].
      split; [exact Ev|]. intros q Hq Hvq.
      in_snoc Hq.
      * rewrite (Hall _ Hq) in Hvq. discriminate.
      * injection Hq as ->. apply Qle_refl.
    + cbn [snd]. rewrite E. cbn [js_gt js_lt].
      destruct (Qltb M q0) eqn:Elt.
      * apply Qltb_lt in Elt. exists q0.
        split; [reflexivity|]. split; [apply in_or_app; right; now left|].
        split; [exact Ev|]. intros q Hq Hvq.
        in_snoc Hq.
        -- specialize (Hmax q Hq Hvq). lra.
        -- injection Hq as ->. apply Qle_refl.
      * apply Qltb_ge in Elt. exists M.
        split; [reflexivity|]. split; [apply in_or_app; now left|].
        split; [exact Hv|]. intros q Hq Hvq.
        in_snoc Hq.
        -- auto.
        -- injection Hq as ->. exact Elt.
Qed.

Lemma fold_tracks_max (vals : list number) :
  forall seen mm,
  max_tracked seen mm ->
  max_tracked (seen ++ vals) (fold_left (fun acc v => observe v acc) vals mm).
Proof.
  induction vals as [|v vals IH]; intros seen mm Inv.
  - rewrite app_nil_r. exact Inv.
  - cbn [fold_left].
    replace (seen ++ v :: vals) with ((seen ++ [v]) ++ vals)
      by (rewrite <- app_assoc; reflexivity).
    apply IH, observe_tracks_max, Inv.
Qed.

Lemma running_maximum (vals : list number) :
  max_tracked vals (fold_left (fun acc v => observe v acc) vals (PInf, NInf)).
Proof.
  apply (fold_tracks_max vals [] (PInf, NInf)).
  left. split; [reflexivity|]. intros v [].
Qed.

(** The extrema after the fallback: either no sample is valid and they
    are 0 and 10, or they are the least and the largest valid sample. *)
Lemma extrema_cases (vals : list number) :
  let mm := fallback (fold_left (fun acc v => observe v acc) vals (PInf, NInf)) in
  (mm = (Fin 0, Fin 10) /\ forall v, In v vals -> noData v = true)
  \/ (exists m M : Q,
        mm = (Fin m, Fin M)
        /\ In (Fin m) vals /\ noData (Fin m) = false
        /\ In (Fin M) vals /\ noData (Fin M) = false
        /\ forall q : Q, In (Fin q) vals -> noData (Fin q) = false ->
                         m <= q /\ q <= M).
Proof.
  intro mm. subst mm.
  pose proof (running_minimum vals) as Hmin.
  pose proof (running_maximum vals) as Hmax.
  set (mm := fold_left _ vals (PInf, NInf)) in *.
  destruct Hmin as [[E Hall]|(m & Em & Hin & Hv & Hlow)].
  - left. rewrite E. split; [reflexivity|exact Hall].
  - right. destruct Hmax as [[E Hall]|(M & EM & HinM & HvM & Hup)].
    + rewrite (Hall _ Hin) in Hv. discriminate.
    + exists m, M. split.
      * unfold fallback. rewrite Em. destruct mm as [a b].
        cbn [fst snd] in *. now subst.
      * repeat (split; [assumption|]). intros q Hq Hvq. split; auto.
Qed.

(** * Part XI: terrain from an image *)

(** A loop that writes [f i] at index [i], for consecutive [i], fills the
    array from the first index it visits. *)
Lemma fill_loop (f : Z -> number) (n : nat) :
  forall (from : Z) (pre rest : list number),
  (0 <= from)%Z ->
  length pre = Z.to_nat from ->
  (n <= length rest)%nat ->
  for_loop n from (fun i a => typed_set a (Z.to_nat i) (f i)) (pre ++ rest)
  = pre ++ map f (zseq from n) ++ skipn n rest.
Proof.
  induction n as [|n IH]; intros from pre rest Hfrom Hlen Hn.
  - reflexivity.
  - destruct rest as [|old rest]; [simpl in Hn; lia|].
    cbn [for_loop zseq map skipn].
    rewrite <- Hlen, typed_set_app.
    replace (pre ++ f from :: rest) with ((pre ++ [f from]) ++ rest)
      by (rewrite <- app_assoc; reflexivity).
    rewrite IH.
    + rewrite <- app_assoc. reflexivity.
    + lia.
    + rewrite length_app. cbn [length]. lia.
    + simpl in Hn. lia.
Qed.

Lemma fill_whole (f : Z -> number) (n : nat) (init : list number) :
  length init = n ->
  for_loop n 0 (fun i a => typed_set a (Z.to_nat i) (f i)) init
  = map f (zseq 0 n).
Proof.
  intro Hlen.
  change init with ([] ++ init) at 1.
  rewrite (fill_loop f n 0 [] init) by (cbn; lia).
  rewrite skipn_all2 by lia. cbn [app]. apply app_nil_r.
Qed.

Lemma processImageToHeightData_eq rgba width height :
  processImageToHeightData (Some rgba) width height
  = map (pixel_height rgba) (zseq 0 (N.to_nat (width * height))).
Proof.
  unfold processImageToHeightData. cbv zeta.
  rewrite repeat_length. apply fill_whole. apply repeat_length.
Qed.

Lemma byte_value_range (b : Byte.byte) :
  0 <= byte_value b /\ byte_value b <= 255.
Proof.
  unfold byte_value. pose proof (Byte.to_N_bounded b) as H.
  split.
  - rewrite <- (Zle_Qle 0). lia.
  - rewrite <- (Zle_Qle _ 255). lia.
Qed.

Lemma rgba_get_in_range (rgba : list Byte.byte) (i : Z) :
  (0 <= i < Z.of_nat (length rgba))%Z ->
  exists b : Byte.byte, rgba_get rgba i = Fin (byte_value b).
Proof.
  intros [H0 H1]. unfold rgba_get.
  destruct (i <? 0)%Z eqn:E; [apply Z.ltb_lt in E; lia|].
  destruct (nth_error rgba (Z.to_nat i)) as [b|] eqn:En.
  - now exists b.
  - apply nth_error_None in En. lia.
Qed.

Lemma pixel_height_unit (rgba : list Byte.byte) (i : Z) :
  (0 <= i)%Z -> (4 * i + 3 <= Z.of_nat (length rgba))%Z ->
  unit_height (pixel_height rgba i).
Proof.
  intros Hi Hlen. unfold pixel_height. cbv zeta.
  destruct (rgba_get_in_range rgba (i * 4)) as [r ->]; [lia|].
  destruct (rgba_get_in_range rgba (i * 4 + 1)) as [g ->]; [lia|].
  destruct (rgba_get_in_range rgba (i * 4 + 2)) as [b ->]; [lia|].
  destruct (byte_value_range r) as [Hr0 Hr].
  destruct (byte_value_range g) as [Hg0 Hg].
  destruct (byte_value_range b) as [Hb0 Hb].
  cbn [js_mul js_add js_div].
  change (Qeq_bool 255.0 0) with false. cbv iota.
  eexists. split; [reflexivity|].
  set (br := 0.299 * byte_value r + 0.587 * byte_value g
             + 0.114 * byte_value b).
  assert (Hbr : 0 <= br /\ br <= 255) by (unfold br; split; lra).
  setoid_replace (br / 255.0) with (br * (1 # 255)) by field.
  split; lra.
Qed.

Lemma processImageToHeightData_length ctx width height :
  length (processImageToHeightData ctx width height)
  = N.to_nat (width * height).
Proof.
  destruct ctx as [rgba|].
  - rewrite processImageToHeightData_eq, length_map. apply zseq_length.
  - apply repeat_length.
Qed.

Lemma drawn_pixels_unit rgba width height :
  (4 * N.to_nat (width * height) <= length rgba)%nat ->
  Forall unit_height (processImageToHeightData (Some rgba) width height).
Proof.
  intro Hlen. rewrite processImageToHeightData_eq.
  apply Forall_forall. intros v Hv. apply in_map_iff in Hv.
  destruct Hv as (i & <- & Hi). apply in_zseq in Hi.
  apply pixel_height_unit; lia.
Qed.

Lemma blank_canvas_unit width height :
  Forall unit_height (processImageToHeightData None width height).
Proof.
  apply Forall_forall. intros v Hv. apply repeat_spec in Hv. subst v.
  exists 0. repeat split; discriminate.
Qed.



(** ** The size of the image *)

Lemma inject_Z_pos_nonzero (p : positive) : ~ inject_Z (Z.pos p) == 0.
Proof. apply inject_Z_nonzero. lia. Qed.

(** [Math.round(MAX_SIZE / ratio)] and [Math.round(MAX_SIZE * ratio)] in
    integer arithmetic. *)
Lemma round_shrunk_height (w h : positive) :
  Math_round (inject_Z MAX_SIZE / (inject_Z (Z.pos w) / inject_Z (Z.pos h)))
  = ((512 * Z.pos h + Z.pos w) / (2 * Z.pos w))%Z.
Proof.
  unfold Math_round, MAX_SIZE.
  rewrite <- Qfloor_div_Z by lia.
  apply Qfloor_comp.
  rewrite inject_Z_plus, !inject_Z_mult.
  pose proof (inject_Z_pos_nonzero w). pose proof (inject_Z_pos_nonzero h).
  change (inject_Z 512) with 512. change (inject_Z 256) with 256.
  change (inject_Z 2) with 2.
  field. repeat split; assumption.
Qed.

Lemma round_shrunk_width (w h : positive) :
  Math_round (inject_Z MAX_SIZE * (inject_Z (Z.pos w) / inject_Z (Z.pos h)))
  = ((512 * Z.pos w + Z.pos h) / (2 * Z.pos h))%Z.
Proof.
  unfold Math_round, MAX_SIZE.
  rewrite <- Qfloor_div_Z by lia.
  apply Qfloor_comp.
  rewrite inject_Z_plus, !inject_Z_mult.
  pose proof (inject_Z_pos_nonzero h).
  change (inject_Z 512) with 512. change (inject_Z 256) with 256.
  change (inject_Z 2) with 2.
  field. assumption.
Qed.

Lemma fitImageSize_small (iw ih : positive) :
  (Z.pos iw <= 256)%Z -> (Z.pos ih <= 256)%Z ->
  fitImageSize iw ih = (Z.pos iw, Z.pos ih).
Proof.
  intros Hw Hh. unfold fitImageSize, MAX_SIZE. cbv zeta.
  destruct (256 <? Z.pos iw)%Z eqn:E1; [apply Z.ltb_lt in E1; lia|].
  destruct (256 <? Z.pos ih)%Z eqn:E2; [apply Z.ltb_lt in E2; lia|].
  reflexivity.
Qed.

Lemma fitImageSize_wide (iw ih : positive) :
  (256 < Z.pos iw \/ 256 < Z.pos ih)%Z -> (Z.pos ih < Z.pos iw)%Z ->
  fitImageSize iw ih
  = (256%Z, ((512 * Z.pos ih + Z.pos iw) / (2 * Z.pos iw))%Z).
Proof.
  intros Hbig Hlt. unfold fitImageSize. cbv zeta.
  assert (E : (MAX_SIZE <? Z.pos iw)%Z || (MAX_SIZE <? Z.pos ih)%Z = true).
  { apply orb_true_iff. unfold MAX_SIZE.
    destruct Hbig; [left|right]; apply Z.ltb_lt; assumption. }
  rewrite E. apply Z.ltb_lt in Hlt. rewrite Hlt.
  rewrite round_shrunk_height. reflexivity.
Qed.

Lemma fitImageSize_tall (iw ih : positive) :
  (256 < Z.pos iw \/ 256 < Z.pos ih)%Z -> (Z.pos iw <= Z.pos ih)%Z ->
  fitImageSize iw ih
  = (((512 * Z.pos iw + Z.pos ih) / (2 * Z.pos ih))%Z, 256%Z).
Proof.
  intros Hbig Hle. unfold fitImageSize. cbv zeta.
  assert (E : (MAX_SIZE <? Z.pos iw)%Z || (MAX_SIZE <? Z.pos ih)%Z = true).
  { apply orb_true_iff. unfold MAX_SIZE.
    destruct Hbig; [left|right]; apply Z.ltb_lt; assumption. }
  rewrite E. apply Z.ltb_ge in Hle. rewrite Hle.
  rewrite round_shrunk_width. reflexivity.
Qed.

(** The rounded short side, for a long side [a] and a short side [b]. *)
Lemma rounded_side (a b : Z) :
  (0 < b <= a)%Z ->
  (0 <= (512 * b + a) / (2 * a) <= 256)%Z
  /\ (a <= 512 * b -> 1 <= (512 * b + a) / (2 * a))%Z
  /\ (512 * b < a -> (512 * b + a) / (2 * a) = 0)%Z.
Proof.
  intros [Hb Hab].
  split; [split|split].
  - apply Z.div_pos; lia.
  - assert ((512 * b + a) / (2 * a) < 257)%Z
      by (apply Z.div_lt_upper_bound; lia).
    lia.
  - intro H. apply Z.div_le_lower_bound; lia.
  - intro H. apply Z.div_small. lia.
Qed.

(** X7.  Size of an uploaded image: an image of at most 256 by 256 keeps
    its size; a larger one gets its longer side set to 256; both sides of
    the result are between 0 and 256; they are both at least 1 when the
    longer side of the image is at most 512 times the shorter one, and
    otherwise the shorter side is rounded to 0 and the grid is empty. *)
Theorem fitImageSize_bounds (imgWidth imgHeight : positive) :
  ((Z.pos imgWidth <= 256)%Z -> (Z.pos imgHeight <= 256)%Z ->
   fitImageSize imgWidth imgHeight = (Z.pos imgWidth, Z.pos imgHeight))
  /\ ((256 < Z.max (Z.pos imgWidth) (Z.pos imgHeight))%Z ->
      Z.max (fst (fitImageSize imgWidth imgHeight))
            (snd (fitImageSize imgWidth imgHeight)) = 256%Z)
  /\ (0 <= fst (fitImageSize imgWidth imgHeight) <= 256)%Z
  /\ (0 <= snd (fitImageSize imgWidth imgHeight) <= 256)%Z
  /\ ((Z.max (Z.pos imgWidth) (Z.pos imgHeight)
       <= 512 * Z.min (Z.pos imgWidth) (Z.pos imgHeight))%Z ->
      (1 <= fst (fitImageSize imgWidth imgHeight))%Z
      /\ (1 <= snd (fitImageSize imgWidth imgHeight))%Z)
  /\ ((512 * Z.min (Z.pos imgWidth) (Z.pos imgHeight)
       < Z.max (Z.pos imgWidth) (Z.pos imgHeight))%Z ->
      (fst (fitImageSize imgWidth imgHeight)
       * snd (fitImageSize imgWidth imgHeight) = 0)%Z).
Proof.
  split; [apply fitImageSize_small|].
  destruct (Z_le_gt_dec (Z.max (Z.pos imgWidth) (Z.pos imgHeight)) 256)
    as [Hsmall|Hbig].
  - rewrite fitImageSize_small by lia. cbn [fst snd]. repeat split; lia.
  - destruct (Z_lt_le_dec (Z.pos imgHeight) (Z.pos imgWidth)) as [Hlt|Hle].
    + rewrite fitImageSize_wide by lia. cbn [fst snd].
      destruct (rounded_side (Z.pos imgWidth) (Z.pos imgHeight))
        as (Hr & Hone & Hzero); [lia|].
      repeat split; lia.
    + rewrite fitImageSize_tall by lia. cbn [fst snd].
      destruct (rounded_side (Z.pos imgHeight) (Z.pos imgWidth))
        as (Hr & Hone & Hzero); [lia|].
      repeat split; lia.
Qed.

Lemma fitImageSize_bounds_witness :
  (256 < Z.max 1000 500)%Z
  /\ Z.max (fst (fitImageSize 1000 500)) (snd (fitImageSize 1000 500))
     = 256%Z.
Proof.
  assert (H : (256 < Z.max 1000 500)%Z) by reflexivity.
  split; [exact H|].
  exact (proj1 (proj2 (fitImageSize_bounds 1000 500)) H).
Defined.

(** ** The scaled heights *)

Lemma fitImageSize_nonneg (iw ih : positive) :
  (0 <= fst (fitImageSize iw ih))%Z /\ (0 <= snd (fitImageSize iw ih))%Z.
Proof.
  destruct (Z_le_gt_dec (Z.max (Z.pos iw) (Z.pos ih)) 256) as [Hsmall|Hbig].
  - rewrite fitImageSize_small by lia. cbn [fst snd]. lia.
  - destruct (Z_lt_le_dec (Z.pos ih) (Z.pos iw)) as [Hlt|Hle].
    + rewrite fitImageSize_wide by lia. cbn [fst snd].
      destruct (rounded_side (Z.pos iw) (Z.pos ih)) as (Hr & _); lia.
    + rewrite fitImageSize_tall by lia. cbn [fst snd].
      destruct (rounded_side (Z.pos ih) (Z.pos iw)) as (Hr & _); lia.
Qed.

Lemma typed_get_nth (a : list number) (i : Z) :
  (0 <= i)%Z -> typed_get a i = nth (Z.to_nat i) a NaN.
Proof.
  intro Hi. unfold typed_get.
  destruct (i <? 0)%Z eqn:E; [apply Z.ltb_lt in E; lia|reflexivity].
Qed.

Lemma imageTerrain_eq ctx iw ih :
  imageTerrain ctx iw ih
  = let w := fst (fitImageSize iw ih) in
    let h := snd (fitImageSize iw ih) in
    let normalizedData :=
      processImageToHeightData ctx (Z.to_N w) (Z.to_N h) in
    ({| TerrainConfig.width := w;
        TerrainConfig.depth := h;
        TerrainConfig.cellSize := 1;
        TerrainConfig.maxHeight := DEM_MAX_HEIGHT |},
     map (fun i => js_mul (typed_get normalizedData i) (Fin DEM_MAX_HEIGHT))
         (zseq 0 (length normalizedData))).
Proof.
  unfold imageTerrain. destruct (fitImageSize iw ih) as [w h].
  cbv zeta. cbn [fst snd]. f_equal.
  apply fill_whole. apply repeat_length.
Qed.

(** X8.  Terrain from an image: the configuration has the fitted size,
    the height data has [width * depth] entries, and every height lies
    between 0 and the [maxHeight] of the configuration (50). *)
Theorem image_terrain_within_maxHeight
  (ctx : option (list Byte.byte)) (imgWidth imgHeight : positive) :
  (forall rgba, ctx = Some rgba ->
     (0 < fst (fitImageSize imgWidth imgHeight)
          * snd (fitImageSize imgWidth imgHeight))%Z
     /\ length rgba
        = (4 * Z.to_nat (fst (fitImageSize imgWidth imgHeight)
                         * snd (fitImageSize imgWidth imgHeight)))%nat) ->
  TerrainConfig.width (fst (imageTerrain ctx imgWidth imgHeight))
  = fst (fitImageSize imgWidth imgHeight)
  /\ TerrainConfig.depth (fst (imageTerrain ctx imgWidth imgHeight))
     = snd (fitImageSize imgWidth imgHeight)
  /\ length (snd (imageTerrain ctx imgWidth imgHeight))
     = Z.to_nat
         (TerrainConfig.width (fst (imageTerrain ctx imgWidth imgHeight))
          * TerrainConfig.depth (fst (imageTerrain ctx imgWidth imgHeight)))
  /\ Forall
       (fun v =>
          exists q : Q,
            v = Fin q /\ 0 <= q
            /\ q <= TerrainConfig.maxHeight
                      (fst (imageTerrain ctx imgWidth imgHeight)))
       (snd (imageTerrain ctx imgWidth imgHeight)).
Proof.
  intro Hlen. rewrite imageTerrain_eq. cbv zeta.
  cbn [fst snd TerrainConfig.width TerrainConfig.depth TerrainConfig.maxHeight].
  destruct (fitImageSize_nonneg imgWidth imgHeight) as [Hw Hh].
  set (w := fst (fitImageSize imgWidth imgHeight)) in *.
  set (h := snd (fitImageSize imgWidth imgHeight)) in *.
  assert (Hsize : N.to_nat (Z.to_N w * Z.to_N h) = Z.to_nat (w * h)).
  { rewrite <- Z2N.inj_mul by assumption. apply Z_N_nat. }
  pose proof (processImageToHeightData_length ctx (Z.to_N w) (Z.to_N h)) as Hl.
  assert (Hunit : Forall unit_height
                    (processImageToHeightData ctx (Z.to_N w) (Z.to_N h))).
  { destruct ctx as [rgba|]; [|apply blank_canvas_unit].
    apply drawn_pixels_unit. rewrite Hsize.
    destruct (Hlen rgba eq_refl) as [_ ->]. apply Nat.le_refl. }
  set (nd := processImageToHeightData ctx (Z.to_N w) (Z.to_N h)) in *.
  split; [reflexivity|]. split; [reflexivity|].
  split; [rewrite length_map, zseq_length, Hl; exact Hsize|].
  apply Forall_forall. intros v Hv. apply in_map_iff in Hv.
  destruct Hv as (i & <- & Hi). apply in_zseq in Hi.
  rewrite typed_get_nth by lia.
  rewrite Forall_forall in Hunit.
  destruct (Hunit (nth (Z.to_nat i) nd NaN)) as (q & -> & H0 & H1).
  { apply nth_In. lia. }
  cbn [js_mul]. exists (q * DEM_MAX_HEIGHT).
  split; [reflexivity|]. unfold DEM_MAX_HEIGHT. split; lra.
Qed.

Lemma image_terrain_within_maxHeight_witness :
  (forall rgba,
     Some [Byte.xff; Byte.x80; Byte.x00; Byte.xff] = Some rgba ->
     (0 < fst (fitImageSize 1 1) * snd (fitImageSize 1 1))%Z
     /\ length rgba
        = (4 * Z.to_nat (fst (fitImageSize 1 1) * snd (fitImageSize 1 1)))%nat)
  /\ length (snd (imageTerrain
                    (Some [Byte.xff; Byte.x80; Byte.x00; Byte.xff]) 1 1))
     = Z.to_nat
         (TerrainConfig.width
            (fst (imageTerrain
                    (Some [Byte.xff; Byte.x80; Byte.x00; Byte.xff]) 1 1))
          * TerrainConfig.depth
              (fst (imageTerrain
                      (Some [Byte.xff; Byte.x80; Byte.x00; Byte.xff]) 1 1))).
Proof.
  assert (H : forall rgba,
             Some [Byte.xff; Byte.x80; Byte.x00; Byte.xff] = Some rgba ->
             (0 < fst (fitImageSize 1 1) * snd (fitImageSize 1 1))%Z
             /\ length rgba
                = (4 * Z.to_nat (fst (fitImageSize 1 1)
                                 * snd (fitImageSize 1 1)))%nat).
  { intros rgba E. injection E as <-. split; reflexivity. }
  split; [exact H|].
  exact (proj1 (proj2 (proj2 (image_terrain_within_maxHeight _ 1 1 H)))).
Defined.

(** * Part XII: the rising-water animation *)

Lemma thousandth_eq (m : Q) : m / 1000 == m * (1 # 1000).
Proof. reflexivity. Qed.

Lemma animate_cases (m prev : Q) :
  (animate m prev = (prev, false) /\ m + m * 0.1 <= prev + m * (1 # 1000))
  \/ (animate m prev = (prev + m / 1000, true)
      /\ prev + m * (1 # 1000) < m + m * 0.1).
Proof.
  unfold animate. cbv zeta.
  destruct (Qle_bool (m + m * 0.1) (prev + m / 1000)) eqn:E.
  - left. split; [reflexivity|]. apply Qle_bool_iff in E.
    rewrite thousandth_eq in E. exact E.
  - right. split; [reflexivity|]. apply Qle_bool_gt in E.
    rewrite thousandth_eq in E. exact E.
Qed.

Lemma frames_stopped (n : nat) (m level : Q) :
  frames n m (level, false) = (level, false).
Proof. destruct n; reflexivity. Qed.

Lemma frames_S (n : nat) (m level : Q) :
  frames (S n) m (level, true) = frames n m (animate m level).
Proof. reflexivity. Qed.

Lemma frames_add (a : nat) :
  forall (b : nat) (m : Q) (s : Q * bool),
  frames (a + b) m s = frames b m (frames a m s).
Proof.
  induction a as [|a IH]; intros b m [level rising]; [reflexivity|].
  destruct rising.
  - cbn [Nat.add]. rewrite !frames_S. apply IH.
  - rewrite !frames_stopped. reflexivity.
Qed.

(** X9.  The rising-water animation never lowers the water level and
    never brings it to [1.1 * maxHeight]: from a level below that limit,
    after any number of frames the level is still below it. *)
Theorem rising_water_stays_below_limit (n : nat) :
  forall (maxHeight level : Q) (rising : bool),
  0 <= maxHeight ->
  level < maxHeight + maxHeight * 0.1 ->
  level <= fst (frames n maxHeight (level, rising))
  /\ fst (frames n maxHeight (level, rising)) < maxHeight + maxHeight * 0.1.
Proof.
  induction n as [|n IH]; intros m level rising Hm Hlevel.
  - cbn [frames fst]. split; [apply Qle_refl|exact Hlevel].
  - destruct rising; [|rewrite frames_stopped; cbn [fst]; split; lra].
    rewrite frames_S.
    destruct (animate_cases m level) as [[E H]|[E H]]; rewrite E.
    + rewrite frames_stopped. cbn [fst]. split; lra.
    + pose proof (thousandth_eq m) as Et.
      destruct (IH m (level + m / 1000) true Hm) as [H1 H2]; [lra|].
      split; lra.
Qed.

Lemma rising_water_stays_below_limit_witness :
  0 <= 40 /\ 0 < 40 + 40 * 0.1
  /\ fst (frames 3 40 (0, true)) < 40 + 40 * 0.1.
Proof.
  assert (Hm : 0 <= 40) by discriminate.
  assert (Hl : 0 < 40 + 40 * 0.1) by reflexivity.
  split; [exact Hm|]. split; [exact Hl|].
  exact (proj2 (rising_water_stays_below_limit 3 40 0 true Hm Hl)).
Defined.

(** * Part XIII: typed elevation and typed year *)

Lemma clampElevation_range (val : Q) :
  4304 <= clampElevation val /\ clampElevation val <= 4405.
Proof.
  unfold clampElevation, ABS_MIN_ELEVATION, ABS_MAX_ELEVATION.
  destruct (Q.min_spec 4405 val) as [[H1 E1]|[H1 E1]];
  destruct (Q.max_spec 4304 (Qmin 4405 val)) as [[H2 E2]|[H2 E2]];
  rewrite E2; rewrite ?E1 in *; split; lra.
Qed.

Lemma clampElevation_cases (val : Q) :
  (val < 4304 /\ clampElevation val == 4304)
  \/ (4304 <= val <= 4405 /\ clampElevation val == val)
  \/ (4405 < val /\ clampElevation val == 4405).
Proof.
  unfold clampElevation, ABS_MIN_ELEVATION, ABS_MAX_ELEVATION.
  destruct (Q.min_spec 4405 val) as [[H1 E1]|[H1 E1]];
  destruct (Q.max_spec 4304 (Qmin 4405 val)) as [[H2 E2]|[H2 E2]];
  rewrite E2; rewrite ?E1 in *.
  - right; right. split; [exact H1|reflexivity].
  - exfalso. lra.
  - right; left. split; [split; lra|reflexivity].
  - destruct (Qlt_le_dec val 4304) as [Hlt|Hge].
    + left. split; [exact Hlt|reflexivity].
    + right; left. split; [split; lra|]. lra.
Qed.

(** While the target area is at most the area at the first midpoint, the
    search never leaves the lower half of the bracket. *)
Lemma search_stays_low (year : Q) :
  targetArea year <= calculatePolynomialArea 4377 ->
  getElevationFromYear year <= 4377.
Proof.
  intro Ht. rewrite getElevationFromYear_eq.
  destruct (Qle_bool (targetArea year) 1); [discriminate|].
  set (t := targetArea year) in *.
  change 64%nat with (S 63).
  assert (Em : Qred ((4304 + 4450) / 2) == 4377)
    by (rewrite (midpoint_eq 4304 4450); reflexivity).
  loop_round t 4304 4450 E H.
  - cbn [result_of]. rewrite Em. apply Qle_refl.
  - exfalso. destruct H as [_ H]. rewrite Em in H. lra.
  - destruct (search_loop_in_bracket 63 t 4304 (Qred ((4304 + 4450) / 2)))
      as [_ Hup]; [rewrite Em; discriminate|].
    apply Qle_trans with (Qred ((4304 + 4450) / 2)); [exact Hup|].
    rewrite Em. apply Qle_refl.
Qed.

Lemma round_to_integer (x : Q) (z : Z) :
  Qabs (x - inject_Z z) < 1 # 2 -> Math_round x = z.
Proof.
  intro H. apply Qabs_Qlt_condition in H. destruct H as [H1 H2].
  unfold Math_round.
  pose proof (Qfloor_le (x + 0.5)) as Hle.
  pose proof (Qlt_floor (x + 0.5)) as Hlt.
  assert (Ez : inject_Z (Qfloor (x + 0.5) + 1) == inject_Z (Qfloor (x + 0.5)) + 1)
    by (rewrite inject_Z_plus; reflexivity).
  rewrite Ez in Hlt.
  assert (Hlo : inject_Z z - 1 < inject_Z (Qfloor (x + 0.5))) by lra.
  assert (Hhi : inject_Z (Qfloor (x + 0.5)) < inject_Z z + 1) by lra.
  setoid_replace (inject_Z z - 1) with (inject_Z (z - 1)) in Hlo
    by (unfold Z.sub; rewrite inject_Z_plus; reflexivity).
  setoid_replace (inject_Z z + 1) with (inject_Z (z + 1)) in Hhi
    by (rewrite inject_Z_plus; reflexivity).
  rewrite <- Zlt_Qlt in Hlo, Hhi. lia.
Qed.

Lemma estimatedYear_proper (e e' m m' : Q) :
  e == e' ->
  estimatedYear (calculateHydraulics e m)
  = estimatedYear (calculateHydraulics e' m').
Proof.
  intro E. cbn [calculateHydraulics estimatedYear]. f_equal.
  unfold Math_round. apply Qfloor_comp.
  unfold calculateYearFromArea. rewrite E. reflexivity.
Qed.

(** X12.  From the typed year to the displayed year: for every integer
    year from 1892 to 2226, when a terrain is loaded, [handleYearSet] sets
    the absolute water level to [getElevationFromYear year] (the clamp
    leaves it alone) and the statistics recomputed from that level show
    [estimatedYear = year]. *)
Theorem typed_year_is_displayed
  (year : Z) (minElevation substanceMass : Q) (heightDataLength : nat)
  (stats : SimulationStats) :
  (1892 <= year <= 2226)%Z ->
  (0 < heightDataLength)%nat ->
  exists waterLevel : Q,
    handleYearSet (Some (inject_Z year)) minElevation = Some waterLevel
    /\ absoluteWaterLevel minElevation waterLevel
       == getElevationFromYear (inject_Z year)
    /\ estimatedYear
         (updateStats heightDataLength minElevation waterLevel substanceMass
            stats)
       = Some year.
Proof.
  intros Hyear Hlen.
  assert (Hy1 : 1892 <= inject_Z year) by (rewrite <- (Zle_Qle 1892); lia).
  assert (Hy2 : inject_Z year <= 2226) by (rewrite <- (Zle_Qle _ 2226); lia).
  assert (Hp : practical_year (inject_Z year))
    by (apply practical_years; lra).
  assert (Ht : targetArea (inject_Z year) <= calculatePolynomialArea 4377).
  { assert (Ha : 275907800 <= calculatePolynomialArea 4377)
      by by_computation.
    assert (E : targetArea (inject_Z year)
                == (YEAR_SLOPE * inject_Z year + YEAR_INTERCEPT) * 1000000).
    { unfold targetArea. apply Q.max_r.
      unfold YEAR_SLOPE, YEAR_INTERCEPT. lra. }
    rewrite E. unfold YEAR_SLOPE, YEAR_INTERCEPT. lra. }
  pose proof (search_stays_low _ Ht) as Hlow.
  assert (Hge : 4304 <= getElevationFromYear (inject_Z year)).
  { rewrite getElevationFromYear_eq.
    destruct (Qle_bool (targetArea (inject_Z year)) 1); [discriminate|].
    destruct (search_loop_in_bracket 64 (targetArea (inject_Z year))
                4304 4450) as [Hlo _]; [discriminate|exact Hlo]. }
  set (r := getElevationFromYear (inject_Z year)) in *.
  exists (clampElevation r - minElevation).
  split; [reflexivity|].
  assert (E : absoluteWaterLevel minElevation (clampElevation r - minElevation)
              == r).
  { unfold absoluteWaterLevel.
    destruct (clampElevation_cases r) as [[H _]|[[_ Ec]|[H _]]];
      [exfalso; lra| |exfalso; lra].
    rewrite Ec. ring. }
  split; [exact E|].
  unfold updateStats.
  destruct (0 <? heightDataLength)%nat eqn:El;
    [|apply Nat.ltb_ge in El; lia].
  rewrite (estimatedYear_proper _ r substanceMass substanceMass E).
  cbn [calculateHydraulics estimatedYear]. f_equal.
  apply round_to_integer.
  pose proof (search_reaches_target _ Hp) as Hs. fold r in Hs.
  destruct Hp as [Hpl _]. pose proof area_4304 as H0.
  rewrite round_trip_error by lra.
  apply Qabs_Qlt_condition in Hs. destruct Hs as [H1 H2].
  apply Qabs_Qlt_condition. split; lra.
Qed.

Lemma typed_year_is_displayed_witness :
  (1892 <= 2024 <= 2226)%Z /\ (0 < 4)%nat
  /\ exists waterLevel : Q,
       handleYearSet (Some (inject_Z 2024)) 4300 = Some waterLevel
       /\ estimatedYear
            (updateStats 4 4300 waterLevel 1000
               (calculateHydraulics 0 0))
          = Some 2024%Z.
Proof.
  assert (H1 : (1892 <= 2024 <= 2226)%Z) by lia.
  assert (H2 : (0 < 4)%nat) by lia.
  split; [exact H1|]. split; [exact H2|].
  destruct (typed_year_is_displayed 2024 4300 1000 4
              (calculateHydraulics 0 0) H1 H2) as (wl & E & _ & Hy).
  exists wl. split; assumption.
Defined.

(** * Part XIV: the vertex colours *)

Lemma color_in_unit_cube (h m : Q) :
  ~ (h == 0 /\ m == 0) -> in_unit_cube (getColorByHeight (Fin h) (Fin m)).
Proof.
  intro Hnz.
  destruct (normalized_height h m Hnz) as (t & E & Hu & _).
  rewrite (getColorByHeight_ramp (Fin h) (Fin m) t E).
  exists (fst (fst (ramp t))), (snd (fst (ramp t))), (snd (ramp t)).
  split; [reflexivity|]. apply ramp_in_unit_interval. exact Hu.
Qed.

Lemma maxH_loop (heightData : list number) :
  forall a : Q,
  0 <= a ->
  Forall nonneg_height heightData ->
  exists M : Q,
    fold_left (fun maxH v => if js_gt v maxH then v else maxH)
      heightData (Fin a) = Fin M
    /\ a <= M
    /\ (forall q : Q, In (Fin q) heightData -> q <= M)
    /\ ((forall q : Q, In (Fin q) heightData -> q <= a) -> M = a).
Proof.
  induction heightData as [|v hd IH]; intros a Ha Hall.
  - exists a. cbn [fold_left]. split; [reflexivity|].
    split; [apply Qle_refl|]. split; [intros q []|reflexivity].
  - inversion Hall as [|v' hd' (q0 & -> & Hq0) Hrest]; subst.
    cbn [fold_left js_gt js_lt].
    destruct (Qltb a q0) eqn:E.
    + apply Qltb_lt in E.
      destruct (IH q0 Hq0 Hrest) as (M & EM & HaM & Hup & _).
      exists M. split; [exact EM|]. split; [lra|]. split.
      * intros q [Hq|Hq]; [injection Hq as <-; exact HaM|auto].
      * intro Hsmall. exfalso.
        specialize (Hsmall q0 (or_introl eq_refl)). lra.
    + apply Qltb_ge in E.
      destruct (IH a Ha Hrest) as (M & EM & HaM & Hup & Hflat).
      exists M. split; [exact EM|]. split; [exact HaM|]. split.
      * intros q [Hq|Hq]; [injection Hq as <-; lra|auto].
      * intro Hsmall. apply Hflat. intros q Hq. apply Hsmall. now right.
Qed.

Lemma or_zero_height (heightData : list number) (i : nat) :
  Forall nonneg_height heightData ->
  exists q : Q,
    or_zero (nth i heightData NaN) = Fin q /\ 0 <= q
    /\ (Fin q = Fin 0 \/ (In (Fin q) heightData /\ ~ q == 0)).
Proof.
  intro Hall.
  destruct (Nat.lt_ge_cases i (length heightData)) as [Hi|Hi].
  - rewrite Forall_forall in Hall.
    pose proof (nth_In heightData NaN Hi) as Hin.
    destruct (Hall _ Hin) as (q & E & Hq). rewrite E in *.
    cbn [or_zero]. destruct (Qeq_bool q 0) eqn:Ez.
    + exists 0. split; [reflexivity|]. split; [apply Qle_refl|now left].
    + exists q. split; [reflexivity|]. split; [exact Hq|]. right.
      split; [exact Hin|]. intro Hz. apply Qeq_bool_iff in Hz. congruence.
  - rewrite nth_overflow by exact Hi. exists 0.
    split; [reflexivity|]. split; [apply Qle_refl|now left].
Qed.

(** What [TerrainMesh] passes to [getColorByHeight] for vertex [i]. *)
Lemma vertexColor_cases
  (heightData : list number) (configMaxHeight : number) (i : nat) :
  Forall nonneg_height heightData ->
  exists q : Q,
    0 <= q
    /\ ((exists M : Q,
           0 < M
           /\ vertexColor heightData configMaxHeight i
              = getColorByHeight (Fin q) (Fin M))
        \/ ((forall q' : Q, In (Fin q') heightData -> q' <= 0)
            /\ vertexColor heightData configMaxHeight i
               = getColorByHeight (Fin q) configMaxHeight)).
Proof.
  intro Hall. unfold vertexColor, colorMax, maxHeightOf. cbv zeta.
  destruct (maxH_loop heightData 0 (Qle_refl 0) Hall)
    as (M & EM & HM0 & Hup & Hflat).
  rewrite EM. cbn [js_gt js_lt].
  destruct (or_zero_height heightData i Hall) as (q & Eq & Hq & _).
  rewrite Eq. exists q. split; [exact Hq|].
  destruct (Qltb 0 M) eqn:E.
  - apply Qltb_lt in E. left. exists M. split; [exact E|reflexivity].
  - apply Qltb_ge in E. right. split; [|reflexivity].
    intros q' Hq'. specialize (Hup q' Hq'). lra.
Qed.

(** X13.  Vertex colours: when the heights are numbers at least 0 and
    either one of them is positive or the configured [maxHeight] is a
    non-zero number, every vertex (also one past the end of the height
    data) gets a colour with its three components in [[0, 1]]. *)
Theorem vertex_colours_in_unit_cube
  (heightData : list number) (configMaxHeight : number) (i : nat) :
  Forall nonneg_height heightData ->
  (exists q : Q, In (Fin q) heightData /\ 0 < q)
  \/ (exists c : Q, configMaxHeight = Fin c /\ ~ c == 0) ->
  in_unit_cube (vertexColor heightData configMaxHeight i).
Proof.
  intros Hall Hcase.
  destruct (vertexColor_cases heightData configMaxHeight i Hall)
    as (q & Hq & [(M & HM & E)|[Hflat E]]); rewrite E.
  - apply color_in_unit_cube. intros [_ Hz]. lra.
  - destruct Hcase as [(q1 & Hin & Hpos)|(c & -> & Hc)].
    + exfalso. specialize (Hflat q1 Hin). lra.
    + apply color_in_unit_cube. intros [_ Hz]. contradiction.
Qed.

Lemma vertex_colours_in_unit_cube_witness :
  Forall nonneg_height [Fin 0; Fin 2; Fin 4]
  /\ in_unit_cube (vertexColor [Fin 0; Fin 2; Fin 4] (Fin 4) 1).
Proof.
  assert (H : Forall nonneg_height [Fin 0; Fin 2; Fin 4]).
  { repeat constructor; eexists; (split; [reflexivity|discriminate]). }
  split; [exact H|].
  apply (vertex_colours_in_unit_cube [Fin 0; Fin 2; Fin 4] (Fin 4) 1 H).
  left. exists 2. split; [right; left; reflexivity|reflexivity].
Defined.

(** ** The colours of an ingested raster *)

Lemma in_rows rawData origWidth origHeight scale (w n : nat) (v : number) :
  forall y0 : Z,
  In v (rows rawData origWidth origHeight scale y0 n w) ->
  exists y x : Z,
    (y0 <= y < y0 + Z.of_nat n)%Z /\ (0 <= x < Z.of_nat w)%Z
    /\ v = sampleAt rawData origWidth origHeight scale y x.
Proof.
  intros y0 Hin. unfold rows in Hin.
  apply in_flat_map in Hin. destruct Hin as (y & Hy & Hin).
  apply in_map_iff in Hin. destruct Hin as (x & <- & Hx).
  apply in_zseq in Hy. apply in_zseq in Hx.
  exists y, x. split; [lia|]. split; [lia|reflexivity].
Qed.

(** Every sample of a full raster is one of its elements. *)
Lemma sampled_from_raster rawData ow oh t (v : number) :
  length rawData = N.to_nat (ow * oh) ->
  In v (sampled rawData ow oh t) -> In v rawData.
Proof.
  intros Hlen Hin. unfold sampled in Hin.
  apply in_rows in Hin. destruct Hin as (y & x & Hy & Hx & ->).
  pose proof (demWidth_nonneg ow oh t) as HW.
  pose proof (demHeight_nonneg ow oh t) as HH.
  assert (Hx' : (0 <= x < demWidth ow oh t)%Z) by lia.
  assert (Hy' : (0 <= y < demHeight ow oh t)%Z) by lia.
  rewrite sampleAt_unclamped by assumption.
  pose proof (source_coordinate_in_range ow ow oh t x Hx') as Hsx.
  pose proof (source_coordinate_in_range oh ow oh t y Hy') as Hsy.
  rewrite typed_get_nth by nia.
  apply nth_In. rewrite Hlen. nia.
Qed.

Lemma getColorByHeight_zero_max (z : Q) :
  z == 0 -> getColorByHeight (Fin 0) (Fin z) = (NaN, NaN, NaN).
Proof.
  intro Hz. apply Qeq_bool_iff in Hz.
  unfold getColorByHeight. cbn [js_div]. rewrite Hz. reflexivity.
Qed.

Lemma maxHeightOf_flat (heightData : list number) :
  Forall zero_height heightData -> maxHeightOf heightData = Fin 0.
Proof.
  unfold maxHeightOf. induction heightData as [|v hd IH]; intro Hall.
  - reflexivity.
  - inversion Hall as [|v' hd' (q & -> & Hq) Hrest]; subst.
    cbn [fold_left js_gt js_lt].
    assert (E : Qltb 0 q = false) by (apply Qltb_ge; lra).
    rewrite E. apply IH. exact Hrest.
Qed.

Lemma or_zero_flat (heightData : list number) (i : nat) :
  Forall zero_height heightData -> or_zero (nth i heightData NaN) = Fin 0.
Proof.
  intro Hall.
  destruct (Nat.lt_ge_cases i (length heightData)) as [Hi|Hi].
  - rewrite Forall_forall in Hall.
    destruct (Hall _ (nth_In heightData NaN Hi)) as (q & -> & Hq).
    cbn [or_zero]. apply Qeq_bool_iff in Hq. rewrite Hq. reflexivity.
  - rewrite nth_overflow by exact Hi. reflexivity.
Qed.

(** X14.  A flat raster: when every element of a full raster is the same
    valid value and the grid is not empty, every height of the grid is 0,
    [maxHeight] is 0, and every vertex colour computed from them is
    [(NaN, NaN, NaN)]. *)
Theorem flat_raster_colours_are_NaN
  rawData origWidth origHeight targetMaxSize (c : Q) (i : nat) :
  noData (Fin c) = false ->
  length rawData = N.to_nat (origWidth * origHeight) ->
  Forall (fun v => v = Fin c) rawData ->
  data (processRawDemData rawData origWidth origHeight targetMaxSize) <> [] ->
  Forall zero_height
    (data (processRawDemData rawData origWidth origHeight targetMaxSize))
  /\ maxHeight (processRawDemData rawData origWidth origHeight targetMaxSize)
     = Fin (c - c)
  /\ vertexColor
       (data (processRawDemData rawData origWidth origHeight targetMaxSize))
       (maxHeight (processRawDemData rawData origWidth origHeight
                     targetMaxSize)) i
     = (NaN, NaN, NaN).
Proof.
  intros Hc Hlen Hall Hne.
  rewrite processRawDemData_eq in *. cbv zeta in *.
  cbn [data maxHeight] in *.
  set (vals := sampled rawData origWidth origHeight targetMaxSize) in *.
  assert (Hvals : forall v, In v vals -> v = Fin c).
  { intros v Hv. rewrite Forall_forall in Hall. apply Hall.
    apply (sampled_from_raster _ _ _ _ _ Hlen Hv). }
  destruct (extrema_cases vals)
    as [[E Hnd]|(m & M & E & Hin & Hv & HinM & HvM & Hb)].
  - exfalso. destruct vals as [|v vals']; [now apply Hne|].
    specialize (Hnd v (or_introl eq_refl)).
    rewrite (Hvals v (or_introl eq_refl)) in Hnd. congruence.
  - apply Hvals in Hin. apply Hvals in HinM.
    injection Hin as ->. injection HinM as ->.
    rewrite E. cbn [fst snd].
    assert (Hflat : Forall zero_height (map (shift_or_fill (Fin c)) vals)).
    { apply Forall_forall. intros u Hu. apply in_map_iff in Hu.
      destruct Hu as (v & <- & Hvin). rewrite (Hvals v Hvin).
      unfold shift_or_fill. rewrite Hc.
      exists (c + - c). split; [reflexivity|ring]. }
    split; [exact Hflat|]. split; [reflexivity|].
    unfold vertexColor, colorMax. cbv zeta.
    rewrite (maxHeightOf_flat _ Hflat), (or_zero_flat _ i Hflat).
    cbn [js_gt js_lt]. change (Qltb 0 0) with false. cbv iota.
    apply getColorByHeight_zero_max. cbn [js_sub js_neg js_add]. ring.
Qed.

Lemma flat_raster_colours_are_NaN_witness :
  noData (Fin 7) = false
  /\ length [Fin 7; Fin 7; Fin 7; Fin 7] = N.to_nat (2 * 2)
  /\ vertexColor
       (data (processRawDemData [Fin 7; Fin 7; Fin 7; Fin 7] 2 2 256))
       (maxHeight (processRawDemData [Fin 7; Fin 7; Fin 7; Fin 7] 2 2 256)) 0
     = (NaN, NaN, NaN).
Proof.
  assert (H1 : noData (Fin 7) = false) by reflexivity.
  assert (H2 : length [Fin 7; Fin 7; Fin 7; Fin 7] = N.to_nat (2 * 2))
    by reflexivity.
  assert (H3 : Forall (fun v => v = Fin 7) [Fin 7; Fin 7; Fin 7; Fin 7])
    by (repeat constructor).
  assert (H4 : data (processRawDemData [Fin 7; Fin 7; Fin 7; Fin 7] 2 2 256)
               <> []) by (vm_compute; discriminate).
  split; [exact H1|]. split; [exact H2|].
  exact (proj2 (proj2 (flat_raster_colours_are_NaN
                         [Fin 7; Fin 7; Fin 7; Fin 7] 2 2 256 7 0
                         H1 H2 H3 H4))).
Defined.



(** * Part XV: the hydraulic core in binary64 *)

(** ** Signs and comparisons of binary64 values *)









(** ** The numeric guards *)






(** Inside the elevations the interface can set, [[4304, 4405]], and on
    to the end of the bracket, the guards have nothing to catch: at every
    whole metre the area, the volume and the concentration are numbers. *)
Lemma no_NaN_by_the_metre :
  forallb
    (fun x =>
       negb (is_nan (Binary64.surfaceArea (Binary64.calculateHydraulics x 1000)))
       && negb (is_nan (Binary64.volume (Binary64.calculateHydraulics x 1000)))
       && negb (is_nan (Binary64.concentration
                          (Binary64.calculateHydraulics x 1000))))
    (Binary64.whole_numbers 4304 147) = true.
Proof. by_computation. Qed.

(** ** The round trip *)

(** C3 fails on the code, in two ways.

    Year 1947.  Evaluated in binary64 the quartic carries a few m² of
    rounding noise (its terms are near [1e16]), more than the tolerance of
    1 m² the search tests: no midpoint passes the test, the 64 rounds run
    out on two neighbouring numbers, and at the elevation returned the
    area is 2 m² off the target.  The year read back is off by 2.53e-6,
    twice the 1 m² tolerance carried through the linear model
    ([1 / 790300]).

    Year 2260.  The target, 302.778 km², is an area of the lake between
    the elevations 4390 and 4395, yet the search, misled by the falling
    branch of the quartic, ends on 4450, where the area is 0, and the year
    read back is 1876.88. *)
Theorem round_trip_fails :
  Binary64.search_loop 64 (Binary64.targetArea 1947) 4304 4450
  = Binary64.Continue 4308.265610087662 4308.265610087663
  /\ Binary64.getElevationFromYear 1947 = 4308.265610087663%float
  /\ (abs (Binary64.calculatePolynomialArea
              (Binary64.getElevationFromYear 1947)
            - Binary64.targetArea 1947) <? Binary64.epsilon)%float = false
  /\ (abs (Binary64.roundTrip 1947 - 1947) <? 1 / 790300)%float = false
  /\ (Binary64.calculatePolynomialArea 4390 <? Binary64.targetArea 2260)%float
     = true
  /\ (Binary64.targetArea 2260 <? Binary64.calculatePolynomialArea 4395)%float
     = true
  /\ Binary64.getElevationFromYear 2260 = 4450%float
  /\ Binary64.calculatePolynomialArea 4450 = 0%float
  /\ (Binary64.roundTrip 2260 <? 1877)%float = true.
Proof. each_by_computation. Qed.

Lemma zseq_in (n : nat) :
  forall (from k : Z),
  (from <= k < from + Z.of_nat n)%Z -> In k (zseq from n).
Proof.
  induction n as [|n IH]; intros from k Hk; [lia|].
  cbn [zseq]. destruct (Z.eq_dec from k) as [->|Hne]; [now left|].
  right. apply IH. lia.
Qed.

(** The miss at 1947 is isolated, and small.  For every whole year from
    1892 to 2254 the year read back is within 0.0001 of the year and
    rounds to it; 1947 apart, it is within [1 / 790300] of it. *)
Lemma round_trip_by_the_year :
  forallb
    (fun year =>
       let back := Binary64.roundTrip year in
       (abs (back - year) <? 0.0001)%float
       && (Binary64.Math_round back =? year)%float
       && ((abs (back - year) <? 1 / 790300)%float || (year =? 1947)%float))
    (Binary64.whole_numbers 1892 363) = true.
Proof. by_computation. Qed.

(** X19.  The round trip at the precision of the display, as the program
    computes it in binary64: for every whole year from 1892 to 2254, at
    the elevation [getElevationFromYear] returns the year read back from
    the area is within 0.0001 of the year, and the estimated year of the
    sample, its rounding, is the year. *)
Theorem whole_year_round_trip (year : Z) (mass : float) :
  (1892 <= year)%Z -> (year <= 2254)%Z ->
  (abs (Binary64.roundTrip (Binary64.of_Z year) - Binary64.of_Z year)
   <? 0.0001)%float = true
  /\ (Binary64.estimatedYear
        (Binary64.calculateHydraulics
           (Binary64.getElevationFromYear (Binary64.of_Z year)) mass)
      =? Binary64.of_Z year)%float = true.
Proof.
  intros Hlo Hhi.
  pose proof round_trip_by_the_year as H.
  rewrite forallb_forall in H.
  assert (Hin : In (Binary64.of_Z year) (Binary64.whole_numbers 1892 363))
    by (apply in_map, zseq_in; lia).
  apply H in Hin. cbv zeta in Hin.
  apply andb_true_iff in Hin. destruct Hin as [Hin _].
  apply andb_true_iff in Hin. destruct Hin as [Hnear Hround].
  split; [exact Hnear|exact Hround].
Qed.

Lemma whole_year_round_trip_witness :
  (1892 <= 2024)%Z /\ (2024 <= 2254)%Z
  /\ (Binary64.estimatedYear
        (Binary64.calculateHydraulics
           (Binary64.getElevationFromYear (Binary64.of_Z 2024)) 1000)
      =? Binary64.of_Z 2024)%float = true.
Proof.
  assert (H1 : (1892 <= 2024)%Z) by discriminate.
  assert (H2 : (2024 <= 2254)%Z) by discriminate.
  split; [exact H1|]. split; [exact H2|].
  exact (proj2 (whole_year_round_trip 2024 1000 H1 H2)).
Defined.

(** The miss at 2260 is not: every whole year from 2255 to 2268 has its
    target below the area at 4403, and for each of them the search ends
    on 4450 and the year read back is 1876.88. *)
Lemma round_trip_lost_from_2255 :
  forallb
    (fun year =>
       (Binary64.targetArea year <? Binary64.calculatePolynomialArea 4403)%float
       && (Binary64.getElevationFromYear year =? 4450)%float
       && (Binary64.roundTrip year <? 1877)%float)
    (Binary64.whole_numbers 2255 14) = true.
Proof. by_computation. Qed.

(** ** Growth by the metre *)

Lemma rising_nth (l : list float) :
  forall (i j : nat) (d : float),
  Binary64.rising l = true ->
  (i < j)%nat -> (j < length l)%nat ->
  (nth i l d <? nth j l d)%float = true.
Proof.
  induction l as [|v l IH]; intros i j d Hr Hij Hj; [cbn in Hj; lia|].
  cbn [Binary64.rising] in Hr. apply andb_true_iff in Hr.
  destruct Hr as [Hv Hl].
  destruct j as [|j]; [lia|].
  destruct i as [|i]; cbn [nth].
  - rewrite forallb_forall in Hv. apply Hv.
    apply nth_In. cbn in Hj. lia.
  - apply IH; [exact Hl|lia|cbn in Hj; lia].
Qed.

Lemma whole_numbers_nth (f : float -> float) (from : Z) (n i : nat) :
  (i < n)%nat ->
  nth i (map f (Binary64.whole_numbers from n)) 0%float
  = f (Binary64.of_Z (from + Z.of_nat i)).
Proof.
  intro Hi. unfold Binary64.whole_numbers. rewrite map_map.
  rewrite (nth_indep _ 0%float (f (Binary64.of_Z 0)))
    by (rewrite length_map, zseq_length; exact Hi).
  rewrite (map_nth (fun z => f (Binary64.of_Z z))).
  rewrite (zseq_nth n from i 0%Z Hi). reflexivity.
Qed.

Lemma rising_by_the_metre (f : float -> float) (from : Z) (n : nat) (a b : Z) :
  Binary64.rising (map f (Binary64.whole_numbers from n)) = true ->
  (from <= a)%Z -> (a < b)%Z -> (b < from + Z.of_nat n)%Z ->
  (f (Binary64.of_Z a) <? f (Binary64.of_Z b))%float = true.
Proof.
  intros Hr Ha Hab Hb.
  pose proof (rising_nth _ (Z.to_nat (a - from)) (Z.to_nat (b - from))
                0%float Hr) as H.
  rewrite !whole_numbers_nth in H by lia.
  replace (from + Z.of_nat (Z.to_nat (a - from)))%Z with a in H by lia.
  replace (from + Z.of_nat (Z.to_nat (b - from)))%Z with b in H by lia.
  apply H; [lia|].
  unfold Binary64.whole_numbers. rewrite !length_map, zseq_length. lia.
Qed.

(** X18.  Area by the metre, as the program computes it in binary64: at
    the whole metres from 4304 to 4403 the area strictly increases with
    the elevation.  (Between neighbouring binary64 elevations it need not:
    the steps of the area are then smaller than the rounding noise of the
    quartic.) *)
Theorem area_rises_by_the_metre (a b : Z) :
  (4304 <= a)%Z -> (a < b)%Z -> (b <= 4403)%Z ->
  (Binary64.calculatePolynomialArea (Binary64.of_Z a)
   <? Binary64.calculatePolynomialArea (Binary64.of_Z b))%float = true.
Proof.
  intros Ha Hab Hb.
  apply (rising_by_the_metre Binary64.calculatePolynomialArea 4304 100);
    [by_computation|lia|lia|lia].
Qed.

Lemma area_rises_by_the_metre_witness :
  (4304 <= 4320)%Z /\ (4320 < 4380)%Z /\ (4380 <= 4403)%Z
  /\ (Binary64.calculatePolynomialArea (Binary64.of_Z 4320)
      <? Binary64.calculatePolynomialArea (Binary64.of_Z 4380))%float = true.
Proof.
  assert (H1 : (4304 <= 4320)%Z) by discriminate.
  assert (H2 : (4320 < 4380)%Z) by reflexivity.
  assert (H3 : (4380 <= 4403)%Z) by discriminate.
  split; [exact H1|]. split; [exact H2|]. split; [exact H3|].
  exact (area_rises_by_the_metre 4320 4380 H1 H2 H3).
Defined.

(** Two neighbouring binary64 elevations where the computed area goes
    down by 10 m². *)
Lemma area_falls_between_neighbours :
  (4308.265610087663 <? 4308.265610087664)%float = true
  /\ Binary64.calculatePolynomialArea 4308.265610087663 = 55414102%float
  /\ Binary64.calculatePolynomialArea 4308.265610087664 = 55414092%float.
Proof. each_by_computation. Qed.

(** X16.  Volume by the metre, as the program computes it in binary64:
    at the whole metres from 4304 to 4440 the volume of the sample
    strictly increases with the elevation, from 0 at 4304, whatever the
    masses. *)
Theorem volume_rises_by_the_metre (a b : Z) (massA massB : float) :
  (4304 <= a)%Z -> (a < b)%Z -> (b <= 4440)%Z ->
  Binary64.volume (Binary64.calculateHydraulics 4304 massA) = 0%float
  /\ (Binary64.volume (Binary64.calculateHydraulics (Binary64.of_Z a) massA)
      <? Binary64.volume
           (Binary64.calculateHydraulics (Binary64.of_Z b) massB))%float
     = true.
Proof.
  intros Ha Hab Hb.
  split; [by_computation|].
  apply (rising_by_the_metre
           (fun x => Binary64.volume (Binary64.calculateHydraulics x 0))
           4304 137);
    [by_computation|lia|lia|lia].
Qed.

Lemma volume_rises_by_the_metre_witness :
  (4304 <= 4310)%Z /\ (4310 < 4320)%Z /\ (4320 <= 4440)%Z
  /\ (Binary64.volume (Binary64.calculateHydraulics (Binary64.of_Z 4310) 1000)
      <? Binary64.volume
           (Binary64.calculateHydraulics (Binary64.of_Z 4320) 1000))%float
     = true.
Proof.
  assert (H1 : (4304 <= 4310)%Z) by discriminate.
  assert (H2 : (4310 < 4320)%Z) by reflexivity.
  assert (H3 : (4320 <= 4440)%Z) by discriminate.
  split; [exact H1|]. split; [exact H2|]. split; [exact H3|].
  exact (proj2 (volume_rises_by_the_metre 4310 4320 1000 1000 H1 H2 H3)).
Defined.

(** Close to the reference elevation the volume does not follow the
    elevation: the two values of the antiderivative are near [3.5e18],
    where neighbouring binary64 numbers are 512 apart, and their
    difference is noise. *)
Lemma volume_falls_near_reference :
  Binary64.volume (Binary64.calculateHydraulics (4304 + 7 / 16384) 1000)
  = 6144%float
  /\ Binary64.volume (Binary64.calculateHydraulics (4304 + 8 / 16384) 1000)
     = 2048%float.
Proof. each_by_computation. Qed.

(** ** The sides of the output grid *)

(** X1 needs its power of two: for a raster of 9 by 9 and
    [targetMaxSize = 7] the scale [9 / 7] is rounded up, [9 / scale] falls
    just below 7 and the grid has 6 cells a side. *)
Lemma newSide_falls_short :
  Binary64.newSide 9 9 7 = 6%float
  /\ Binary64.newSide 1000 1000 256 = 256%float
  /\ Binary64.newSide 500 1000 256 = 128%float.
Proof. each_by_computation. Qed.
